(** * instant-file-alchemy: page ranges, PDF merge/split, rotation, upload filter

    A shallow embedding of the logic found in
    - [src/components/PDFManipulator.tsx] ([parsePageRange], [mergePDFs],
      [splitPDF], [compressPDF]),
    - the [ImageConverter] rotation buttons, and
    - the [FileUpload] handler [processFiles],
    together with the properties the specification states about them.

    Conventions.
    - A JavaScript string is the list of its UTF-16 code units.
    - A JavaScript number that only ever holds an integer is a [Z]; [NaN]
      (and a missing array element, which is as falsy) is [None].  Every
      comparison in [parsePageRange] is against the page count or against
      an already bounded value, so exact integers decide the tests the way
      doubles do for any page count below 2^53.
    - Handlers are run to completion: [await] is sequencing.  What a handler
      does to the world (downloads, toasts, [setIsProcessing], the console) is
      a log of events; a thrown exception keeps the log written before it. *)

From Stdlib Require Import String Ascii.
From Stdlib Require Import ZArith NArith List Bool Lia.
From Stdlib Require Import Sorted Permutation.
Import ListNotations.

Local Open Scope Z_scope.

(* ================================================================== *)
(** * Definitions *)
(* ================================================================== *)

(** ** The JavaScript string and number primitives the code calls *)

Module JS.

Definition code_unit := N.
Definition jsstring := list code_unit.

(** String literals of the source, as code units. *)
Definition js (s : string) : jsstring :=
  map N_of_ascii (list_ascii_of_string s).

Definition number := option Z.
Definition NaN : number := None.

(** [Number.MAX_SAFE_INTEGER], and the integers a double holds exactly and
    [toString] writes digit for digit. *)
Definition MAX_SAFE_INTEGER : Z := 2 ^ 53 - 1.
Definition isSafeInteger (n : Z) : Prop :=
  - MAX_SAFE_INTEGER <= n <= MAX_SAFE_INTEGER.

(** [WhiteSpace] and [LineTerminator] of ECMAScript, the characters
    [String.prototype.trim] and [parseInt] strip. *)
Definition isWhiteSpace (c : code_unit) : bool :=
  ((9 <=? c) && (c <=? 13) || (c =? 32) || (c =? 160) || (c =? 5760)
   || (8192 <=? c) && (c <=? 8202) || (c =? 8232) || (c =? 8233)
   || (c =? 8239) || (c =? 8287) || (c =? 12288) || (c =? 65279))%N.

Fixpoint trimStart (s : jsstring) : jsstring :=
  match s with
  | c :: r => if isWhiteSpace c then trimStart r else s
  | [] => []
  end.

Definition trimEnd (s : jsstring) : jsstring := rev (trimStart (rev s)).

Definition trim (s : jsstring) : jsstring := trimEnd (trimStart s).

(** [s.includes(c)] for a one-character needle. *)
Definition includes (c : code_unit) (s : jsstring) : bool :=
  existsb (N.eqb c) s.

(** [s.split(sep)] for a one-character separator: never empty, the empty
    string splits into one empty piece. *)
Fixpoint split (sep : code_unit) (s : jsstring) : list jsstring :=
  match s with
  | [] => [[]]
  | c :: r =>
      if (c =? sep)%N then [] :: split sep r
      else match split sep r with
           | h :: t => (c :: h) :: t
           | [] => [[c]]
           end
  end.

Fixpoint startsWith (p s : jsstring) : bool :=
  match p, s with
  | [], _ => true
  | a :: p', b :: s' => (a =? b)%N && startsWith p' s'
  | _ :: _, [] => false
  end.

(** [arr.join(sep)]. *)
Fixpoint join (sep : jsstring) (l : list jsstring) : jsstring :=
  match l with
  | [] => []
  | [s] => s
  | s :: r => s ++ sep ++ join sep r
  end.

(** Value of a character as a digit, letters counting from 10. *)
Definition digitValue (c : code_unit) : option Z :=
  if ((48 <=? c) && (c <=? 57))%N then Some (Z.of_N (c - 48))
  else if ((97 <=? c) && (c <=? 122))%N then Some (Z.of_N (c - 87))
  else if ((65 <=? c) && (c <=? 90))%N then Some (Z.of_N (c - 55))
  else None.

(** The longest prefix of [s] made of radix-[R] digits. *)
Fixpoint radixDigits (R : Z) (s : jsstring) : list Z :=
  match s with
  | c :: r =>
      match digitValue c with
      | Some d => if d <? R then d :: radixDigits R r else []
      | None => []
      end
  | [] => []
  end.

Definition mathInt (R : Z) (ds : list Z) : Z :=
  fold_left (fun acc d => acc * R + d) ds 0.

(** [parseInt(s)] with no radix argument: leading white space, an optional
    sign, an optional [0x]/[0X] prefix, then the longest run of digits;
    [NaN] when that run is empty.  Whatever follows the run is ignored. *)
Definition parseInt (s : jsstring) : number :=
  let s0 := trimStart s in
  let '(sign, s1) :=
    match s0 with
    | c :: r => if (c =? 45)%N then (-1, r)
                else if (c =? 43)%N then (1, r) else (1, s0)
    | [] => (1, s0)
    end in
  let '(R, s2) :=
    match s1 with
    | c :: x :: r =>
        if ((c =? 48) && ((x =? 120) || (x =? 88)))%N then (16, r)
        else (10, s1)
    | _ => (10, s1)
    end in
  match radixDigits R s2 with
  | [] => NaN
  | ds => Some (sign * mathInt R ds)
  end.

(** Decimal digits of a non-negative integer, most significant first. *)
Fixpoint decimalDigits (fuel : nat) (n : Z) (acc : jsstring) : jsstring :=
  let acc' := (48 + Z.to_N (n mod 10))%N :: acc in
  match fuel with
  | O => acc'
  | S f => if n <? 10 then acc' else decimalDigits f (n / 10) acc'
  end.

(** [String(n)], also what a template literal does to a number, for an
    integer below 10^21. *)
Definition numberToString (n : Z) : jsstring :=
  if n <? 0 then 45%N :: decimalDigits (Z.to_nat (Z.log2 (- n))) (- n) []
  else decimalDigits (Z.to_nat (Z.log2 n)) n [].

(** [x && ...] on a number: [NaN] and [0] are falsy. *)
Definition truthy (x : number) : bool :=
  match x with
  | Some v => negb (v =? 0)
  | None => false
  end.

(** [[...new Set(xs)]]: first occurrences, in insertion order. *)
Fixpoint setOf (seen xs : list Z) : list Z :=
  match xs with
  | [] => seen
  | x :: r => if existsb (Z.eqb x) seen then setOf seen r
              else setOf (seen ++ [x]) r
  end.

(** [xs.sort((a, b) => a - b)]: a stable sort under the comparator; an
    element goes before the first one it does not compare greater than. *)
Fixpoint insertBy (x : Z) (l : list Z) : list Z :=
  match l with
  | [] => [x]
  | y :: r => if x - y <=? 0 then x :: l else y :: insertBy x r
  end.

Definition sortAscending (l : list Z) : list Z := fold_right insertBy [] l.

End JS.

(** ** [PDFManipulator.tsx]: the page-range parser *)

Module PageRange.
Import JS.

(** [for (let i = start; i <= end; i++) pages.push(i)] *)
Definition pushRange (start end_ : Z) : list Z :=
  map (fun k => start + Z.of_nat k) (seq 0 (Z.to_nat (end_ + 1 - start))).

(** The pages one comma-separated part pushes: the body of the loop over
    [parts]. *)
Definition pagesOfPart (totalPages : Z) (part : jsstring) : list Z :=
  let trimmed := trim part in
  if includes 45%N trimmed then
    let nums := map (fun s => parseInt (trim s)) (split 45%N trimmed) in
    let start := nth 0 nums NaN in
    let end_ := nth 1 nums NaN in
    match start, end_ with
    | Some s, Some e =>
        if truthy start && truthy end_ && (s <=? e) && (s >=? 1)
           && (e <=? totalPages)
        then pushRange s e else []
    | _, _ => []
    end
  else
    match parseInt trimmed with
    | Some pageNum =>
        if (pageNum >=? 1) && (pageNum <=? totalPages) then [pageNum] else []
    | None => []
    end.

(** [pages] when the loop over [parts] ends. *)
Definition collectPages (totalPages : Z) (parts : list jsstring) : list Z :=
  fold_left (fun pages part => pages ++ pagesOfPart totalPages part) parts [].

Definition parsePageRange (range : jsstring) (totalPages : Z) : list Z :=
  let parts := split 44%N range in
  sortAscending (setOf [] (collectPages totalPages parts)).

(** What a part is read as: the numbers [parseInt] gets out of it, one for
    a part without a dash, the first two for a part with one. *)
Inductive token :=
| Single (pageNum : number)
| Range (start end_ : number).

Definition tokenOf (part : jsstring) : token :=
  let trimmed := trim part in
  if includes 45%N trimmed then
    let nums := map (fun s => parseInt (trim s)) (split 45%N trimmed) in
    Range (nth 0 nums NaN) (nth 1 nums NaN)
  else Single (parseInt trimmed).

(** The tests of the two branches, on the numbers read. *)
Definition pagesOfToken (totalPages : Z) (t : token) : list Z :=
  match t with
  | Range (Some s) (Some e) =>
      if negb (s =? 0) && negb (e =? 0) && (s <=? e) && (s >=? 1)
         && (e <=? totalPages)
      then pushRange s e else []
  | Range _ _ => []
  | Single (Some pageNum) =>
      if (pageNum >=? 1) && (pageNum <=? totalPages) then [pageNum] else []
  | Single None => []
  end.

(** The tokens the tests turn away: nothing was read where a number is
    needed, or the number or range read is reversed or reaches outside
    [1..totalPages]. *)
Definition rejected (totalPages : Z) (t : token) : Prop :=
  match t with
  | Single None => True
  | Single (Some n) => n < 1 \/ totalPages < n
  | Range (Some s) (Some e) => e < s \/ s < 1 \/ totalPages < e
  | Range _ _ => True
  end.

End PageRange.

(** ** The specification's words about page-range expressions *)

Module Grammar.
Import JS.

(** The pages as the text the resolver reads: the numbers in decimal,
    separated by commas. *)
Definition stringify (pages : list Z) : jsstring :=
  join (js ",") (map numberToString pages).

Definition isDecimalDigit (c : code_unit) : bool :=
  ((48 <=? c) && (c <=? 57))%N.

(** A numeral: decimal digits, at least one. *)
Definition isNumeral (s : jsstring) : bool :=
  match s with
  | [] => false
  | _ :: _ => forallb isDecimalDigit s
  end.

(** The number a numeral writes. *)
Definition digitsValue (ds : jsstring) : Z :=
  mathInt 10 (map (fun c => Z.of_N (c - 48)) ds).

(** A token of the grammar, "a single positive integer or start-end",
    white space around the numbers aside.  Anything else is non-numeric. *)
Definition isNumericToken (part : jsstring) : bool :=
  match split 45%N (trim part) with
  | [n] => isNumeral n
  | [a; b] => isNumeral (trim a) && isNumeral (trim b)
  | _ => false
  end.

End Grammar.

(** ** What a handler does to the world *)

(** pdf-lib is a library, not code of this repository.  A loaded document is
    the list of its pages; [copyPages] picks pages by index and [addPage]
    appends.  Serialising is the library's business: [canSave] says whether
    [save()] resolves for a document or throws, and a downloaded file is
    identified with the pages saved into it.  The handlers call [save()]
    with no options, and pdf-lib then first gives a document without pages
    one blank page, [blankPage].  Importing the module and
    [PDFDocument.create()] are taken to succeed. *)
Class PdfLib (Page : Type) := {
  canSave : list Page -> bool;
  blankPage : Page
}.

Module Effects.
Import JS.

Section Events.
Context {Page : Type}.

Inductive event :=
| Download (name : jsstring) (doc : list Page)
| Toast (title description : jsstring) (destructive : bool)
| SetIsProcessing (b : bool)
| ConsoleError (label : jsstring).

(** A computation writes events and then returns or throws [Error(msg)]. *)
Definition M (A : Type) : Type := (list event * (A + jsstring))%type.

Definition ret {A} (a : A) : M A := ([], inl a).
Definition throw {A} (msg : jsstring) : M A := ([], inr msg).
Definition emit (e : event) : M unit := ([e], inl tt).

Definition bind {A B} (m : M A) (k : A -> M B) : M B :=
  match m with
  | (log, inl a) => let '(log', r) := k a in (log ++ log', r)
  | (log, inr msg) => (log, inr msg)
  end.

(** [try { body } catch (error) { handler } finally { fin }] where, as in
    the source, neither [handler] nor [fin] throws. *)
Definition tryCatchFinally (body : M unit) (handler : jsstring -> M unit)
    (fin : M unit) : M unit :=
  match body with
  | (log, inl tt) => bind (log, inl tt) (fun _ => fin)
  | (log, inr msg) =>
      bind (log, inl tt) (fun _ => bind (handler msg) (fun _ => fin))
  end.

(** [for (const x of xs) { acc = body(acc, x) }], stopping at a throw. *)
Fixpoint forOf {A S} (xs : list A) (body : S -> A -> M S) (s : S) : M S :=
  match xs with
  | [] => ret s
  | x :: r => bind (body s x) (forOf r body)
  end.

Definition log {A} (m : M A) : list event := fst m.

(** The files a run hands to the browser, in order. *)
Definition downloads {A} (m : M A) : list (jsstring * list Page) :=
  flat_map (fun e => match e with Download n d => [(n, d)] | _ => [] end)
           (log m).

(** A run fails when it tells the user so: a destructive toast. *)
Definition failed {A} (m : M A) : bool :=
  existsb (fun e => match e with Toast _ _ d => d | _ => false end)
          (log m).

End Events.
Arguments event : clear implicits.
Arguments M : clear implicits.
End Effects.

Declare Scope js_scope.
Delimit Scope js_scope with js.
Notation "x <- m ;; k" := (Effects.bind m (fun x => k))
  (at level 61, m at next level, right associativity) : js_scope.
Notation "m ;;; k" := (Effects.bind m (fun _ => k))
  (at level 61, right associativity) : js_scope.

(** ** [pages/Index.tsx]: the uploaded-file record *)

Module Index.
Import JS.

Inductive status := uploading | completed | error.

Section Files.
Context {Page : Type}.

(** The browser's [File].  Its bytes are opaque; [f_pdf] is what
    [PDFDocument.load] makes of them, [None] when it throws. *)
Record File := {
  f_name : jsstring;
  f_size : Z;
  f_type : jsstring;
  f_pdf : option (list Page)
}.

Record UploadedFile := {
  id : jsstring;
  file : File;
  name : jsstring;
  size : Z;
  type : jsstring;
  progress : Z;
  uf_status : status
}.
End Files.
Arguments File : clear implicits.
Arguments UploadedFile : clear implicits.
End Index.

(** ** [PDFManipulator.tsx]: merge, split, compress *)

Module PDFManipulator.
Import JS PageRange Effects Index.
Local Open Scope js_scope.

Fixpoint strEq (a b : jsstring) : bool :=
  match a, b with
  | [], [] => true
  | x :: a', y :: b' => (x =? y)%N && strEq a' b'
  | _, _ => false
  end.

Section Handlers.
Context {Page : Type} {lib : PdfLib Page}.

(** The values the handlers close over. *)
Record State := {
  files : list (UploadedFile Page);
  mergeOrder : list jsstring;
  splitRange : jsstring;
  splitMode : jsstring
}.

(** [await PDFDocument.load(await file.file.arrayBuffer())] *)
Definition load (f : UploadedFile Page) : M Page (list Page) :=
  match f_pdf (file f) with
  | Some pdf => ret pdf
  | None => throw (js "Failed to parse PDF document")
  end.

(** [pdf.getPageIndices()] *)
Definition getPageIndices (pdf : list Page) : list Z :=
  map Z.of_nat (seq 0 (length pdf)).

Definition pageAt (pdf : list Page) (i : Z) : option Page :=
  if i <? 0 then None else nth_error pdf (Z.to_nat i).

(** [await newPdf.copyPages(pdf, indices)]; an index with no page
    behind it throws. *)
Fixpoint copyPages (pdf : list Page) (indices : list Z)
    : M Page (list Page) :=
  match indices with
  | [] => ret []
  | i :: r =>
      match pageAt pdf i with
      | Some p => ps <- copyPages pdf r ;; ret (p :: ps)
      | None => throw (js "Cannot read properties of undefined")
      end
  end.

(** The pages [doc.save()] writes: those of the document, or the blank
    page it adds to a document that has none. *)
Definition savedPages (doc : list Page) : list Page :=
  match doc with
  | [] => [blankPage]
  | _ :: _ => doc
  end.

(** [await doc.save()], the blob and the clicked link. *)
Definition saveAndDownload (name : jsstring) (doc : list Page)
    : M Page unit :=
  if canSave doc then emit (Download name (savedPages doc))
  else throw (js "Failed to save document").

Definition findFile (fs : list (UploadedFile Page)) (fileId : jsstring)
    : option (UploadedFile Page) :=
  find (fun f => strEq (id f) fileId) fs.

(** The pages a file id stands for in a merge: those of the first file
    with that id; none when no file has it, the loop then moving on. *)
Definition pagesOfId (fs : list (UploadedFile Page)) (fileId : jsstring)
    : list Page :=
  match findFile fs fileId with
  | Some f => match f_pdf (file f) with Some pdf => pdf | None => [] end
  | None => []
  end.

(** Whether loading throws for the file an id stands for. *)
Definition loadable (fs : list (UploadedFile Page)) (fileId : jsstring)
    : bool :=
  match findFile fs fileId with
  | Some f => match f_pdf (file f) with Some _ => true | None => false end
  | None => true
  end.

(** The loop of [mergePDFs] over [mergeOrder]. *)
Definition mergeLoop (fs : list (UploadedFile Page))
    (order : list jsstring) : M Page (list Page) :=
  forOf order
    (fun mergedPdf fileId =>
       match findFile fs fileId with
       | None => ret mergedPdf
       | Some f =>
           pdf <- load f ;;
           pages <- copyPages pdf (getPageIndices pdf) ;;
           ret (mergedPdf ++ pages)
       end)
    [].

Definition mergePDFs (st : State) : M Page unit :=
  if (length (files st) <? 2)%nat then
    emit (Toast (js "Not enough files")
            (js "Please select at least 2 PDF files to merge") true)
  else
    emit (SetIsProcessing true) ;;;
    tryCatchFinally
      (mergedPdf <- mergeLoop (files st) (mergeOrder st) ;;
       saveAndDownload (js "merged_document.pdf") mergedPdf ;;;
       emit (Toast (js "Merge completed")
               (numberToString (Z.of_nat (length (files st)))
                ++ js " PDF files merged successfully") false))
      (fun _ =>
         emit (ConsoleError (js "Merge error:")) ;;;
         emit (Toast (js "Merge failed")
                 (js "An error occurred during PDF merging") true))
      (emit (SetIsProcessing false)).

(** What a merge that goes through, and one that does not, leave in
    the log; [merged] is what the downloaded file holds. *)
Definition mergeDone (st : State) (merged : list Page)
    : list (event Page) :=
  [SetIsProcessing true;
   Download (js "merged_document.pdf") merged;
   Toast (js "Merge completed")
     (numberToString (Z.of_nat (length (files st)))
      ++ js " PDF files merged successfully") false;
   SetIsProcessing false].

Definition mergeFailed : list (event Page) :=
  [SetIsProcessing true;
   ConsoleError (js "Merge error:");
   Toast (js "Merge failed")
     (js "An error occurred during PDF merging") true;
   SetIsProcessing false].

(** [file.name.split('.')[0]] *)
Definition baseName (f : UploadedFile Page) : jsstring :=
  nth 0 (split 46%N (name f)) [].

(** The [range] branch of [splitPDF]: one document with the pages. *)
Definition extractRange (f : UploadedFile Page) (range : jsstring)
    (pdf : list Page) (pages : list Z) : M Page unit :=
  copiedPages <- copyPages pdf (map (fun p => p - 1) pages) ;;
  saveAndDownload (baseName f ++ js "_pages_" ++ range ++ js ".pdf")
                  copiedPages.

(** Page [pageNum] of the source as a document of its own. *)
Definition singlePage (pdf : list Page) (pageNum : Z) : list Page :=
  match pageAt pdf (pageNum - 1) with
  | Some p => [p]
  | None => []
  end.

Definition pageFileName (f : UploadedFile Page) (pageNum : Z) : jsstring :=
  baseName f ++ js "_page_" ++ numberToString pageNum ++ js ".pdf".

(** The other branch: a document per page, each downloaded inside the
    loop. *)
Definition splitIndividual (f : UploadedFile Page) (pdf : list Page)
    (pages : list Z) : M Page unit :=
  forOf pages
    (fun _ pageNum =>
       copied <- copyPages pdf [pageNum - 1] ;;
       saveAndDownload
         (baseName f ++ js "_page_" ++ numberToString pageNum ++ js ".pdf")
         (firstn 1 copied))
    tt.

(** The file made for one page: its name and what it holds. *)
Definition pageDownload (f : UploadedFile Page) (pdf : list Page)
    (p : Z) : jsstring * list Page :=
  (pageFileName f p, singlePage pdf p).

Definition downloadPage (f : UploadedFile Page) (pdf : list Page)
    (p : Z) : event Page :=
  Download (pageFileName f p) (singlePage pdf p).

(** Whether every page's document saves. *)
Definition allSave (pdf : list Page) (pages : list Z) : bool :=
  forallb (fun p => canSave (singlePage pdf p)) pages.

(** The pages whose documents are saved before the first one that is
    not: as far as the loop of [splitIndividual] gets. *)
Fixpoint savedPrefix (pdf : list Page) (pages : list Z) : list Z :=
  match pages with
  | [] => []
  | p :: r =>
      if canSave (singlePage pdf p) then p :: savedPrefix pdf r else []
  end.

Definition splitBody (st : State) (f : UploadedFile Page) : M Page unit :=
  pdf <- load f ;;
  let pages :=
    parsePageRange (splitRange st) (Z.of_nat (length pdf)) in
  (if (length pages =? 0)%nat then throw (js "Invalid page range")
   else ret tt) ;;;
  (if strEq (splitMode st) (js "range")
   then extractRange f (splitRange st) pdf pages
   else splitIndividual f pdf pages) ;;;
  emit (Toast (js "Split completed")
          (js "PDF split successfully into "
           ++ (if strEq (splitMode st) (js "range") then js "1 file"
               else numberToString (Z.of_nat (length pages))
                    ++ js " files"))
          false).

(** The two guards, [files.length !== 1] and [!splitRange.trim()], are the
    two matches: exactly one file, [files[0]], and a trimmed range that is
    not the empty string. *)
Definition splitPDF (st : State) : M Page unit :=
  match files st with
  | [f] =>
      match trim (splitRange st) with
      | [] =>
          emit (Toast (js "Enter page range")
                  (js "Please specify which pages to extract") true)
      | _ :: _ =>
          emit (SetIsProcessing true) ;;;
          tryCatchFinally
            (splitBody st f)
            (fun _ =>
               emit (ConsoleError (js "Split error:")) ;;;
               emit (Toast (js "Split failed")
                 (js "An error occurred during PDF splitting. Check your page range.")
                 true))
            (emit (SetIsProcessing false))
      end
  | _ =>
      emit (Toast (js "Select one PDF")
              (js "Please select exactly one PDF file to split") true)
  end.

(** The log of a split that goes through and of one that does not,
    around the downloads made in between. *)
Definition splitDone (st : State) (pages : list Z)
    (made : list (event Page)) : list (event Page) :=
  SetIsProcessing true :: made
  ++ [Toast (js "Split completed")
        (js "PDF split successfully into "
         ++ (if strEq (splitMode st) (js "range") then js "1 file"
             else numberToString (Z.of_nat (length pages))
                  ++ js " files"))
        false;
      SetIsProcessing false].

Definition splitFailed (made : list (event Page)) : list (event Page) :=
  SetIsProcessing true :: made
  ++ [ConsoleError (js "Split error:");
      Toast (js "Split failed")
        (js "An error occurred during PDF splitting. Check your page range.")
        true;
      SetIsProcessing false].

(** [files.length === 0] is the first case of the match. *)
Definition compressPDF (st : State) : M Page unit :=
  match files st with
  | [] =>
      emit (Toast (js "No PDFs selected")
              (js "Please select some PDF files to compress") true)
  | _ :: _ =>
      emit (SetIsProcessing true) ;;;
      tryCatchFinally
        (emit (Toast (js "PDF compression")
           (js "Advanced PDF compression requires specialized libraries. This feature is partially implemented.")
           true))
        (fun _ =>
           emit (ConsoleError (js "Compression error:")) ;;;
           emit (Toast (js "Compression failed")
                   (js "An error occurred during PDF compression") true))
        (emit (SetIsProcessing false))
  end.

End Handlers.
Arguments State : clear implicits.
End PDFManipulator.

(** ** [ImageConverter]: the rotation buttons *)

Module ImageConverter.

(** JavaScript's [%] takes the sign of the dividend: [Z.rem]. *)
Definition rotateLeft (prev : Z) : Z := Z.rem (prev - 90) 360.
Definition rotateRight (prev : Z) : Z := Z.rem (prev + 90) 360.

Inductive click := Left | Right.

Definition onClick (rotation : Z) (c : click) : Z :=
  match c with
  | Left => rotateLeft rotation
  | Right => rotateRight rotation
  end.

(** [useState(0)], then the clicks in order. *)
Definition rotationAfter (cs : list click) : Z := fold_left onClick cs 0.

End ImageConverter.

(** ** [FileUpload]: [processFiles] *)

Module FileUpload.
Import JS Index.

Section Upload.
Context {Page : Type}.

Inductive event :=
| SetIsProcessing (b : bool)
| Toast (title description : jsstring) (destructive : bool)
| OnFilesUploaded (fs : list (UploadedFile Page)).

Definition maxSize : Z := 50 * 1024 * 1024.

Definition isImage (f : File Page) : bool :=
  startsWith (js "image/") (f_type f).
Definition isPDF (f : File Page) : bool :=
  PDFManipulator.strEq (f_type f) (js "application/pdf").

(** One turn of the [forEach] callback.  [random k] is the id string the
    [k]-th evaluation of [Math.random().toString(36).substr(2, 9)]
    gives; one is drawn per accepted file. *)
Definition visit (random : nat -> jsstring)
    (acc : list (UploadedFile Page) * list event) (f : File Page)
    : list (UploadedFile Page) * list event :=
  let '(fs, evs) := acc in
  if f_size f >? maxSize then
    (fs, evs ++ [Toast (js "File too large")
                   (f_name f ++ js " exceeds 50MB limit") true])
  else if negb (isImage f) && negb (isPDF f) then
    (fs, evs ++ [Toast (js "Unsupported format")
                   (f_name f ++ js " is not a supported image or PDF file")
                   true])
  else
    (fs ++ [{| id := random (length fs); file := f; name := f_name f;
               size := f_size f; type := f_type f; progress := 100;
               uf_status := completed |}],
     evs).

Definition processFiles (random : nat -> jsstring)
    (fileList : list (File Page)) : list event :=
  let '(fs, evs) :=
    fold_left (visit random) fileList ([], [SetIsProcessing true]) in
  evs
  ++ (if (0 <? length fs)%nat then
        [OnFilesUploaded fs;
         Toast (js "Files uploaded successfully")
           (numberToString (Z.of_nat (length fs)) ++ js " file"
            ++ (if (1 <? length fs)%nat then js "s" else [])
            ++ js " ready for processing")
           false]
      else [])
  ++ [SetIsProcessing false].

(** The argument of the [onFilesUploaded] call, if it is made. *)
Definition emitted (evs : list event) : option (list (UploadedFile Page)) :=
  match flat_map (fun e => match e with
                           | OnFilesUploaded fs => [fs]
                           | _ => []
                           end) evs with
  | fs :: _ => Some fs
  | [] => None
  end.

(** An uploaded file as [processFiles] builds it from a [File]. *)
Definition builtFrom (u : UploadedFile Page) : Prop :=
  progress u = 100 /\ uf_status u = completed
  /\ name u = f_name (file u) /\ size u = f_size (file u)
  /\ type u = f_type (file u).

Definition noUploadCall (evs : list event) : Prop :=
  emitted evs = None.

(** The test a file passes to be kept. *)
Definition accepted (f : File Page) : bool :=
  negb (f_size f >? maxSize) && (isImage f || isPDF f).

End Upload.
Arguments event : clear implicits.
End FileUpload.

(** ** [PDFManipulator.tsx]: reordering the files to merge *)

Module Reordering.
Import JS.

Inductive direction := up | down.

(** [arr[i] = v] at an index inside the array. *)
Fixpoint setAt {A} (l : list A) (i : nat) (v : A) : list A :=
  match l, i with
  | [], _ => []
  | _ :: r, O => v :: r
  | x :: r, S j => x :: setAt r j v
  end.

(** [movePDF(index, direction)], as the new value of [mergeOrder]; the order
    as it was when [setMergeOrder] is not called.  [index] is the position
    the list is rendered at, a natural number.  The destructuring swap reads
    both elements and then writes [newOrder[index]] and
    [newOrder[targetIndex]].  With [targetIndex] inside the array,
    [newOrder[index]] is missing only for [index = length]: the swap would
    then store [undefined], which a list of strings does not hold, and the
    result is [None]. *)
Definition movePDF (mergeOrder : list jsstring) (index : nat)
    (d : direction) : option (list jsstring) :=
  let newOrder := mergeOrder in
  let targetIndex :=
    match d with
    | up => Z.of_nat index - 1
    | down => Z.of_nat index + 1
    end in
  if (targetIndex >=? 0) && (targetIndex <? Z.of_nat (length newOrder)) then
    match nth_error newOrder index,
          nth_error newOrder (Z.to_nat targetIndex) with
    | Some atIndex, Some atTarget =>
        Some (setAt (setAt newOrder index atTarget)
                (Z.to_nat targetIndex) atIndex)
    | _, _ => None
    end
  else Some mergeOrder.

End Reordering.

(** ** [pages/Index.tsx]: the list of uploaded files and the tabs *)

Module IndexPage.
Import JS Index.

Section Page.
Context {Page : Type}.

Record State := {
  uploadedFiles : list (UploadedFile Page);
  activeTab : jsstring
}.

Definition isImageFile (f : UploadedFile Page) : bool :=
  startsWith (js "image/") (type f).
Definition isPDFFile (f : UploadedFile Page) : bool :=
  PDFManipulator.strEq (type f) (js "application/pdf").

Definition handleFilesUploaded (st : State)
    (files : list (UploadedFile Page)) : State :=
  {| uploadedFiles := uploadedFiles st ++ files;
     activeTab :=
       if (0 <? length files)%nat
          && PDFManipulator.strEq (activeTab st) (js "upload")
       then
         let hasImages := existsb isImageFile files in
         let hasPDFs := existsb isPDFFile files in
         if hasImages && negb hasPDFs then js "image-convert"
         else if hasPDFs && negb hasImages then js "pdf-convert"
         else activeTab st
       else activeTab st |}.

Definition removeFile (st : State) (fileId : jsstring) : State :=
  {| uploadedFiles :=
       filter (fun f => negb (PDFManipulator.strEq (id f) fileId))
              (uploadedFiles st);
     activeTab := activeTab st |}.

Definition clearAllFiles (st : State) : State :=
  {| uploadedFiles := []; activeTab := activeTab st |}.

(** The [files] prop of [ImageConverter] and of [PDFManipulator]. *)
Definition imageToolFiles (st : State) : list (UploadedFile Page) :=
  filter isImageFile (uploadedFiles st).
Definition pdfToolFiles (st : State) : list (UploadedFile Page) :=
  filter isPDFFile (uploadedFiles st).

End Page.
Arguments State : clear implicits.
End IndexPage.

(** ** [ImageConverter]: the resize fields *)

Module Resize.
Import JS.

(** [parseInt(e.target.value) || 0].  [parseInt] gives a double: the
    number read when it is a safe integer, and beyond that a rounded value
    or [Infinity], which the model does not follow and answers with
    [None]. *)
Definition parseDimension (value : jsstring) : option Z :=
  match parseInt value with
  | Some n =>
      if Z.abs n <=? MAX_SAFE_INTEGER
      then Some (if truthy (Some n) then n else 0)
      else None
  | None => Some 0
  end.

End Resize.

(** ** [PDFConverter.tsx]: images to one PDF *)

(** The browser and jsPDF are not code of this repository.  [loadImage] is
    what the [Image] element and the canvas make of a file: the drawn image,
    or [None] when [onerror] fires or no 2d context is given.  [fitToPage]
    is the box ([xOffset], [yOffset], [finalWidth], [finalHeight]) the
    handler computes in floating point from the page and image sizes.  A
    jsPDF document is the list of its pages, a page the list of the images
    placed on it; a new document has one empty page, [addPage] appends an
    empty page and [addImage] draws on the last one.  Importing the module,
    [addImage] and [pdf.save] are taken to succeed. *)
Class Canvas (Page Img Box : Type) := {
  loadImage : Index.File Page -> option Img;
  fitToPage : Img -> Box
}.

Module PDFConverter.
Import JS Effects Index.
Local Open Scope js_scope.

Section Converter.
Context {Page Img Box : Type} {canvas : Canvas Page Img Box}.

(** A page of the PDF being built. *)
Definition sheet : Type := list (Img * Box).

Definition imageFiles (files : list (UploadedFile Page))
    : list (UploadedFile Page) :=
  filter (fun f => startsWith (js "image/") (type f)) files.

Definition pdfFiles (files : list (UploadedFile Page))
    : list (UploadedFile Page) :=
  filter (fun f => PDFManipulator.strEq (type f) (js "application/pdf"))
         files.

(** [pdf.addPage()] and [pdf.addImage(...)]. *)
Definition addPage (pdf : list sheet) : list sheet := pdf ++ [[]].

Definition addImage (pdf : list sheet) (img : Img) (box : Box)
    : list sheet :=
  match rev pdf with
  | last :: before => rev before ++ [last ++ [(img, box)]]
  | [] => []
  end.

(** One turn of the loop over [imageFiles], on [pdf] and [isFirstPage]. *)
Definition placeImage (acc : list sheet * bool) (f : UploadedFile Page)
    : M sheet (list sheet * bool) :=
  let '(pdf, isFirstPage) := acc in
  match loadImage (file f) with
  | None => throw (js "Failed to load image")
  | Some img =>
      let pdf := if negb isFirstPage then addPage pdf else pdf in
      ret (addImage pdf img (fitToPage img), false)
  end.

Definition convertImagesToPDF (files : list (UploadedFile Page))
    : M sheet unit :=
  match imageFiles files with
  | [] =>
      emit (Toast (js "No images selected")
              (js "Please upload some images first") true)
  | _ :: _ =>
      emit (SetIsProcessing true) ;;;
      tryCatchFinally
        (acc <- forOf (imageFiles files) placeImage ([[]], true) ;;
         emit (Download (js "converted_images.pdf") (fst acc)) ;;;
         emit (Toast (js "Conversion completed")
                 (numberToString (Z.of_nat (length (imageFiles files)))
                  ++ js " image"
                  ++ (if (1 <? length (imageFiles files))%nat then js "s"
                      else [])
                  ++ js " converted to PDF successfully")
                 false))
        (fun _ =>
           emit (ConsoleError (js "Conversion error:")) ;;;
           emit (Toast (js "Conversion failed")
                   (js "An error occurred during image to PDF conversion")
                   true))
        (emit (SetIsProcessing false))
  end.

(** The page an image ends up on. *)
Definition sheetOf (img : Img) : sheet := [(img, fitToPage img)].

(** [convertPDFToImages]: the feature is a notice. *)
Definition convertPDFToImages (files : list (UploadedFile Page))
    : M sheet unit :=
  match pdfFiles files with
  | [] =>
      emit (Toast (js "No PDFs selected")
              (js "Please upload some PDF files first") true)
  | _ :: _ =>
      emit (SetIsProcessing true) ;;;
      tryCatchFinally
        (emit (Toast (js "PDF to Image conversion")
           (js "This feature requires a PDF processing library to be fully implemented")
           true))
        (fun _ =>
           emit (ConsoleError (js "Conversion error:")) ;;;
           emit (Toast (js "Conversion failed")
                   (js "An error occurred during PDF to image conversion")
                   true))
        (emit (SetIsProcessing false))
  end.

End Converter.
End PDFConverter.

(** ** The [Select] controls that hold a number *)

Module NumberSelect.
Import JS.

(** [value={rotationAngle.toString()}] and [value={dpi.toString()}]: the
    text of the option shown for the state. *)
Definition shownValue (state : Z) : jsstring := numberToString state.

(** [onValueChange={(value) => setRotationAngle(parseInt(value))}], and the
    same with [setDpi]: the number stored for the text of an option. *)
Definition onValueChange (value : jsstring) : number := parseInt value.

(** The options the two controls offer. *)
Definition angleOptions : list jsstring := [js "90"; js "180"; js "270"].
Definition dpiOptions : list jsstring :=
  [js "72"; js "150"; js "300"; js "600"].

End NumberSelect.

(** ** Reading a log *)

Module Reading.
Import JS Index.

(** [isProcessing] after the [setIsProcessing] calls of a run. *)
Definition isProcessingAfter {Page : Type} (before : bool)
    (evs : list (Effects.event Page)) : bool :=
  fold_left (fun b e => match e with
                        | Effects.SetIsProcessing b' => b'
                        | _ => b
                        end) evs before.

(** The toast [processFiles] shows for a file it turns away. *)
Definition rejectionToast {Page : Type} (f : File Page)
    : FileUpload.event Page :=
  if f_size f >? FileUpload.maxSize then
    FileUpload.Toast (js "File too large")
      (f_name f ++ js " exceeds 50MB limit") true
  else
    FileUpload.Toast (js "Unsupported format")
      (f_name f ++ js " is not a supported image or PDF file") true.

Definition destructiveToasts {Page : Type}
    (evs : list (FileUpload.event Page)) : list (FileUpload.event Page) :=
  filter (fun e => match e with
                   | FileUpload.Toast _ _ d => d
                   | _ => false
                   end) evs.

(** Clicks of each kind in a sequence. *)
Definition clicksOf (c : ImageConverter.click)
    (cs : list ImageConverter.click) : Z :=
  Z.of_nat (length (filter (fun x => match x, c with
                                     | ImageConverter.Left, ImageConverter.Left
                                     | ImageConverter.Right, ImageConverter.Right
                                         => true
                                     | _, _ => false
                                     end) cs)).

End Reading.

(** ** Sample inputs *)

Module Samples.
Import JS Index PDFManipulator.

(** Pages told apart by a number; a library that saves every document, and
    one whose [save()] throws on the document holding page 20 alone. *)
Definition savesAll : PdfLib nat :=
  {| canSave := fun _ => true; blankPage := 0%nat |}.

Definition chokesOn20 : PdfLib nat :=
  {| canSave := fun doc => match doc with
                           | [20%nat] => false
                           | _ => true
                           end;
     blankPage := 0%nat |}.

Definition pdfFile (fileId fileName : string) (pages : list nat)
    : UploadedFile nat :=
  {| id := js fileId;
     file := {| f_name := js fileName; f_size := 1024;
                f_type := js "application/pdf"; f_pdf := Some pages |};
     name := js fileName; size := 1024; type := js "application/pdf";
     progress := 100; uf_status := completed |}.

Definition fileA := pdfFile "k3x9a1b2c" "a.pdf" [1; 2; 3]%nat.
Definition fileB := pdfFile "z8y7w6v5u" "b.pdf" [4; 5]%nat.
Definition fileEmpty := pdfFile "e0e0e0e0e" "empty.pdf" [].
Definition fileDoc := pdfFile "d4d4d4d4d" "doc.pdf" [10; 20; 30; 40]%nat.

(** Files as the browser hands them to the upload handler. *)
Definition picture : File nat :=
  {| f_name := js "photo.png"; f_size := 2048; f_type := js "image/png";
     f_pdf := None |}.
Definition hugePdf : File nat :=
  {| f_name := js "huge.pdf"; f_size := 50 * 1024 * 1024 + 1;
     f_type := js "application/pdf"; f_pdf := Some [1%nat] |}.
Definition notes : File nat :=
  {| f_name := js "notes.txt"; f_size := 10; f_type := js "text/plain";
     f_pdf := None |}.
Definition report : File nat :=
  {| f_name := js "report.pdf"; f_size := 50 * 1024 * 1024;
     f_type := js "application/pdf"; f_pdf := Some [1; 2]%nat |}.

Definition merging (fs : list (UploadedFile nat)) : State nat :=
  {| files := fs; mergeOrder := map id fs;
     splitRange := []; splitMode := js "range" |}.

Definition splitting (f : UploadedFile nat) (range mode : string)
    : State nat :=
  {| files := [f]; mergeOrder := [id f];
     splitRange := js range; splitMode := js mode |}.

End Samples.

(** A batch as the upload handler builds it, and a page it arrives at. *)
Module Batches.
Import JS Index.

Definition draw (k : nat) : jsstring := numberToString (Z.of_nat k).

Definition uploaded (k : nat) (f : File nat) : UploadedFile nat :=
  {| id := draw k; file := f; name := f_name f; size := f_size f;
     type := f_type f; progress := 100; uf_status := completed |}.

Definition dropped : list (File nat) :=
  [Samples.picture; Samples.notes; Samples.report].

Definition batch : list (UploadedFile nat) :=
  [uploaded 0 Samples.picture; uploaded 1 Samples.report].

(** Images told apart by their size, each image its own box; the file named
    [broken.png] does not load as an image. *)
Definition drawsAll : Canvas nat nat nat :=
  {| loadImage := fun f => if PDFManipulator.strEq (f_name f)
                                (js "broken.png")
                           then None else Some (Z.to_nat (f_size f));
     fitToPage := fun img => img |}.

Definition image (k : nat) (fileName : string) (bytes : Z)
    : UploadedFile nat :=
  uploaded k {| f_name := js fileName; f_size := bytes;
                f_type := js "image/png"; f_pdf := None |}.

Definition emptyPage : IndexPage.State nat :=
  {| IndexPage.uploadedFiles := []; IndexPage.activeTab := js "upload" |}.

End Batches.

(* ================================================================== *)
(** * Properties *)
(* ================================================================== *)

Import JS PageRange.

(** ** The primitives on the inputs that matter *)

Example parseInt_examples :
  map parseInt
    (map js [" 12px"; "0x1A"; "-0"; "+7"; ""; "0x"; "1e3"; "abc"; "-5";
             "3abc"; "2.5"]%string)
  = [Some 12; Some 26; Some 0; Some 7; NaN; NaN; Some 1; NaN; Some (-5);
     Some 3; Some 2].
Proof. reflexivity. Qed.

Example split_examples :
  split 44%N (js "a,,b") = [js "a"; []; js "b"]
  /\ split 44%N (js ",") = [[]; []]
  /\ split 44%N [] = [[]]
  /\ split 45%N (js "1-3-9") = [js "1"; js "3"; js "9"].
Proof. repeat split. Qed.

Example trim_example : trim (js "  1 - 3 ") = js "1 - 3".
Proof. reflexivity. Qed.

Example pagesOfPart_examples :
  map (pagesOfPart 5)
    (map js [" 1 - 3 "; "4"; "0"; "6"; "3-7"; "0-2"; "3-1"; "-2"; "2-";
             "x"; ""]%string)
  = [[1; 2; 3]; [4]; []; []; []; []; []; []; []; []; []].
Proof. reflexivity. Qed.

(** ** Lists of integers: sets, sorting *)

Section ListFacts.

Lemma fold_left_app_flat_map {A B} (f : A -> list B) (l : list A)
    (acc : list B) :
  fold_left (fun pages x => pages ++ f x) l acc = acc ++ flat_map f l.
Proof.
  revert acc; induction l as [|x l IH]; intros acc; simpl.
  - now rewrite app_nil_r.
  - now rewrite IH, app_assoc.
Qed.

Lemma existsb_eqb_In (x : Z) (l : list Z) :
  existsb (Z.eqb x) l = true <-> In x l.
Proof.
  rewrite existsb_exists; split.
  - intros (y & Hy & E). apply Z.eqb_eq in E. now subst.
  - intros H. exists x. split; [assumption | apply Z.eqb_refl].
Qed.

Lemma setOf_In (xs seen : list Z) (x : Z) :
  In x (setOf seen xs) <-> In x seen \/ In x xs.
Proof.
  revert seen; induction xs as [|y xs IH]; intros seen; simpl.
  - tauto.
  - destruct (existsb (Z.eqb y) seen) eqn:E.
    + apply existsb_eqb_In in E. rewrite IH.
      intuition (subst; auto).
    + rewrite IH, in_app_iff; simpl. tauto.
Qed.

Lemma setOf_NoDup (xs seen : list Z) :
  NoDup seen -> NoDup (setOf seen xs).
Proof.
  revert seen; induction xs as [|y xs IH]; intros seen Hs; simpl.
  - assumption.
  - destruct (existsb (Z.eqb y) seen) eqn:E.
    + now apply IH.
    + apply IH.
      assert (Hn : ~ In y seen).
      { intros H. apply existsb_eqb_In in H. congruence. }
      apply (Permutation_NoDup (Permutation_cons_append seen y)).
      now constructor.
Qed.

(** A duplicate-free list is its own set. *)
Lemma setOf_fixed (xs seen : list Z) :
  NoDup (seen ++ xs) -> setOf seen xs = seen ++ xs.
Proof.
  revert seen; induction xs as [|y xs IH]; intros seen H; simpl.
  - now rewrite app_nil_r.
  - destruct (existsb (Z.eqb y) seen) eqn:E.
    + apply existsb_eqb_In in E. apply NoDup_remove_2 in H.
      exfalso; apply H, in_or_app; now left.
    + rewrite IH; rewrite <- app_assoc; [reflexivity | exact H].
Qed.

Lemma insertBy_Permutation (x : Z) (l : list Z) :
  Permutation (insertBy x l) (x :: l).
Proof.
  induction l as [|y l IH]; simpl; [reflexivity|].
  destruct (x - y <=? 0); [reflexivity|].
  rewrite IH. apply perm_swap.
Qed.

Lemma sortAscending_Permutation (l : list Z) :
  Permutation (sortAscending l) l.
Proof.
  induction l as [|x l IH]; simpl; [reflexivity|].
  now rewrite insertBy_Permutation, IH.
Qed.

Lemma insertBy_Sorted (x : Z) (l : list Z) :
  Sorted Z.le l -> Sorted Z.le (insertBy x l).
Proof.
  induction l as [|y l IH]; intros H; simpl.
  - repeat constructor.
  - destruct (Z.leb_spec (x - y) 0) as [L|L].
    + constructor; [assumption | constructor; lia].
    + inversion H as [|? ? Hl Hd]; subst.
      constructor; [now apply IH|].
      destruct l as [|z l]; simpl.
      * constructor; lia.
      * destruct (x - z <=? 0); constructor; [lia|].
        now inversion Hd.
Qed.

Lemma sortAscending_Sorted (l : list Z) : Sorted Z.le (sortAscending l).
Proof.
  induction l as [|x l IH]; simpl; [constructor | now apply insertBy_Sorted].
Qed.

Lemma le_NoDup_lt (l : list Z) :
  StronglySorted Z.le l -> NoDup l -> StronglySorted Z.lt l.
Proof.
  induction 1 as [|x l Hs IH Hall]; intros Hnd; constructor;
    inversion Hnd as [|? ? Hx Hl]; subst.
  - now apply IH.
  - rewrite Forall_forall in *. intros y Hy.
    specialize (Hall y Hy).
    assert (x <> y) by (intros ->; contradiction). lia.
Qed.

(** Sorting a duplicate-free list gives a strictly ascending one. *)
Lemma sortAscending_strict (l : list Z) :
  NoDup l -> StronglySorted Z.lt (sortAscending l).
Proof.
  intros H. apply le_NoDup_lt.
  - apply Sorted_StronglySorted; [|apply sortAscending_Sorted].
    intros a b c; apply Z.le_trans.
  - eapply Permutation_NoDup; [|exact H].
    symmetry; apply sortAscending_Permutation.
Qed.

(** An ascending list is already sorted. *)
Lemma sortAscending_fixed (l : list Z) :
  StronglySorted Z.lt l -> sortAscending l = l.
Proof.
  induction 1 as [|x l Hs IH Hall]; simpl; [reflexivity|].
  rewrite IH. destruct l as [|y l]; simpl; [reflexivity|].
  inversion Hall; subst.
  destruct (Z.leb_spec (x - y) 0); [reflexivity | lia].
Qed.

Lemma StronglySorted_lt_NoDup (l : list Z) :
  StronglySorted Z.lt l -> NoDup l.
Proof.
  induction 1 as [|x l Hs IH Hall]; constructor; [|assumption].
  intros Hx. rewrite Forall_forall in Hall. specialize (Hall x Hx). lia.
Qed.

(** A strictly ascending list is determined by its members. *)
Lemma StronglySorted_lt_unique (l1 l2 : list Z) :
  StronglySorted Z.lt l1 -> StronglySorted Z.lt l2 ->
  (forall x, In x l1 <-> In x l2) -> l1 = l2.
Proof.
  intros H1; revert l2.
  induction H1 as [|x l1 Hs1 IH Hall1]; intros l2 H2 Hin.
  - destruct l2 as [|y l2]; [reflexivity|].
    exfalso. apply (Hin y). now left.
  - destruct H2 as [|y l2 Hs2 Hall2].
    + exfalso. apply (Hin x). now left.
    + rewrite Forall_forall in Hall1, Hall2.
      assert (x = y).
      { destruct (proj1 (Hin x) (or_introl eq_refl)) as [E|Hx];
          [now subst|].
        destruct (proj2 (Hin y) (or_introl eq_refl)) as [E|Hy];
          [now subst|].
        specialize (Hall1 y Hy). specialize (Hall2 x Hx). lia. }
      subst y. f_equal. apply IH; [assumption|].
      intros z; split; intros Hz.
      * destruct (proj1 (Hin z) (or_intror Hz)) as [E|Hz'];
          [|assumption].
        subst z. specialize (Hall1 x Hz). lia.
      * destruct (proj2 (Hin z) (or_intror Hz)) as [E|Hz'];
          [|assumption].
        subst z. specialize (Hall2 x Hz). lia.
Qed.

End ListFacts.

(** ** Strings: splitting what was joined *)

Section StringFacts.

Lemma includes_false_iff (c : code_unit) (s : jsstring) :
  includes c s = false <-> ~ In c s.
Proof.
  unfold includes. rewrite <- not_true_iff_false, existsb_exists.
  split; intros H.
  - intros Hin. apply H. exists c. split; [assumption | apply N.eqb_refl].
  - intros (y & Hy & E). apply N.eqb_eq in E. now subst.
Qed.

Lemma split_not_nil (sep : code_unit) (s : jsstring) : split sep s <> [].
Proof.
  induction s as [|c s IH]; simpl; [discriminate|].
  destruct (c =? sep)%N; [discriminate|].
  destruct (split sep s); [contradiction | discriminate].
Qed.

Lemma split_no_sep (sep : code_unit) (t : jsstring) :
  ~ In sep t -> split sep t = [t].
Proof.
  induction t as [|c t IH]; intros H; simpl; [reflexivity|].
  destruct (N.eqb_spec c sep) as [->|_].
  - exfalso; apply H; now left.
  - rewrite IH; [reflexivity|]. intros Hin; apply H; now right.
Qed.

Lemma split_app_sep (sep : code_unit) (t r : jsstring) :
  ~ In sep t -> split sep (t ++ sep :: r) = t :: split sep r.
Proof.
  induction t as [|c t IH]; intros H; simpl.
  - now rewrite N.eqb_refl.
  - destruct (N.eqb_spec c sep) as [->|_].
    + exfalso; apply H; now left.
    + rewrite IH; [reflexivity|]. intros Hin; apply H; now right.
Qed.

Lemma split_join (sep : code_unit) (ts : list jsstring) :
  Forall (fun t => ~ In sep t) ts -> ts <> [] ->
  split sep (join [sep] ts) = ts.
Proof.
  induction 1 as [|t ts Ht Hts IH]; intros Hne; [contradiction|].
  destruct ts as [|u ts].
  - simpl. now apply split_no_sep.
  - change (join [sep] (t :: u :: ts))
      with (t ++ sep :: join [sep] (u :: ts)).
    rewrite split_app_sep by assumption.
    f_equal. apply IH. discriminate.
Qed.

End StringFacts.

(** ** The page-range parser *)

Section ParsePageRange.

Lemma pagesOfPart_token (P : Z) (part : jsstring) :
  pagesOfPart P part = pagesOfToken P (tokenOf part).
Proof.
  unfold pagesOfPart, tokenOf.
  destruct (includes 45%N (trim part)); [|reflexivity].
  cbv zeta.
  destruct (nth 0 _ NaN) as [s|]; [|reflexivity].
  destruct (nth 1 _ NaN) as [e|]; reflexivity.
Qed.

Lemma parsePageRange_unfold (E : jsstring) (P : Z) :
  parsePageRange E P
  = sortAscending (setOf [] (flat_map (pagesOfPart P) (split 44%N E))).
Proof.
  unfold parsePageRange, collectPages.
  now rewrite fold_left_app_flat_map.
Qed.

Lemma parsePageRange_tokens (E : jsstring) (P : Z) :
  parsePageRange E P
  = sortAscending
      (setOf [] (flat_map (pagesOfToken P) (map tokenOf (split 44%N E)))).
Proof.
  rewrite parsePageRange_unfold. do 2 f_equal.
  induction (split 44%N E) as [|part l IH]; simpl; [reflexivity|].
  now rewrite pagesOfPart_token, IH.
Qed.

Lemma pushRange_In (s e x : Z) : In x (pushRange s e) <-> s <= x <= e.
Proof.
  unfold pushRange. rewrite in_map_iff. split.
  - intros (k & <- & Hk). apply in_seq in Hk. lia.
  - intros H. exists (Z.to_nat (x - s)). split; [lia|].
    apply in_seq. lia.
Qed.

(** A page number is in the result exactly when some part pushes it. *)
Lemma parsePageRange_In (E : jsstring) (P x : Z) :
  In x (parsePageRange E P)
  <-> exists part, In part (split 44%N E) /\ In x (pagesOfPart P part).
Proof.
  rewrite parsePageRange_unfold.
  split.
  - intros H.
    apply (Permutation_in _ (sortAscending_Permutation _)) in H.
    apply setOf_In in H. destruct H as [[]|H].
    now apply in_flat_map in H.
  - intros H.
    apply (Permutation_in _ (Permutation_sym (sortAscending_Permutation _))).
    apply setOf_In. right. now apply in_flat_map.
Qed.

Lemma parsePageRange_strict (E : jsstring) (P : Z) :
  StronglySorted Z.lt (parsePageRange E P).
Proof.
  rewrite parsePageRange_unfold.
  apply sortAscending_strict, setOf_NoDup. constructor.
Qed.

(** Two expressions whose parts push the same page numbers resolve alike. *)
Lemma parsePageRange_ext (E1 E2 : jsstring) (P : Z) :
  (forall x,
      (exists part, In part (split 44%N E1) /\ In x (pagesOfPart P part))
      <-> (exists part, In part (split 44%N E2) /\ In x (pagesOfPart P part)))
  -> parsePageRange E1 P = parsePageRange E2 P.
Proof.
  intros H. apply StronglySorted_lt_unique;
    try apply parsePageRange_strict.
  intros x. now rewrite !parsePageRange_In.
Qed.

(** Every page number pushed is a page of the document. *)
Lemma pagesOfPart_bounds (P : Z) (part : jsstring) (x : Z) :
  In x (pagesOfPart P part) -> 1 <= x <= P.
Proof.
  rewrite pagesOfPart_token.
  destruct (tokenOf part) as [[n|]|[s|] [e|]]; simpl; try tauto.
  - destruct (Z.geb_spec n 1), (Z.leb_spec n P); simpl; try tauto.
    intros [<-|[]]; lia.
  - destruct (negb (s =? 0) && negb (e =? 0) && (s <=? e)); simpl;
      [|tauto].
    destruct (Z.geb_spec s 1), (Z.leb_spec e P); simpl; try tauto.
    rewrite pushRange_In. lia.
Qed.

Lemma parsePageRange_bounds (E : jsstring) (P x : Z) :
  In x (parsePageRange E P) -> 1 <= x <= P.
Proof.
  rewrite parsePageRange_In. intros (part & _ & H).
  now apply pagesOfPart_bounds in H.
Qed.

(** The parts of a comma-joined list of comma-free tokens are the tokens. *)
Lemma join_parts_In (ts : list jsstring) (P x : Z) :
  Forall (fun t => ~ In 44%N t) ts ->
  (exists part, In part (split 44%N (join [44%N] ts))
                /\ In x (pagesOfPart P part))
  <-> (exists t, In t ts /\ In x (pagesOfPart P t)).
Proof.
  intros H. destruct ts as [|t ts].
  - simpl. split; intros (part & Hp & Hx); [|contradiction].
    destruct Hp as [<-|[]]. exact (False_ind _ Hx).
  - rewrite split_join; [reflexivity | assumption | discriminate].
Qed.

End ParsePageRange.

Section OrderOfTokens.

(** Reordering the tokens of an expression does not change what it
    resolves to. *)
Lemma parsePageRange_Permutation (ts1 ts2 : list jsstring) (P : Z) :
  Forall (fun t => ~ In 44%N t) ts1 -> Permutation ts1 ts2 ->
  parsePageRange (join (js ",") ts1) P = parsePageRange (join (js ",") ts2) P.
Proof.
  intros H1 Hp.
  assert (H2 : Forall (fun t => ~ In 44%N t) ts2).
  { rewrite Forall_forall in *. intros t Ht. apply H1.
    eapply Permutation_in; [symmetry; exact Hp | exact Ht]. }
  change (js ",") with [44%N].
  apply parsePageRange_ext. intros x.
  rewrite !join_parts_In by assumption.
  split; intros (t & Ht & Hx); exists t; split; try assumption.
  - eapply Permutation_in; eassumption.
  - eapply Permutation_in; [symmetry|]; eassumption.
Qed.

Lemma resolve_5_1to3_3 (P : Z) :
  5 <= P -> parsePageRange (js "5,1-3,3") P = [1; 2; 3; 5].
Proof.
  intros HP. rewrite parsePageRange_tokens.
  change (map tokenOf (split 44%N (js "5,1-3,3")))
    with [Single (Some 5); Range (Some 1) (Some 3); Single (Some 3)].
  cbn [flat_map pagesOfToken].
  replace (5 <=? P) with true by (symmetry; apply Z.leb_le; lia).
  replace (3 <=? P) with true by (symmetry; apply Z.leb_le; lia).
  reflexivity.
Qed.

End OrderOfTokens.

(** C1.  Whatever the expression and the page count, what [parsePageRange]
    returns is strictly ascending, hence without duplicates, and does not
    depend on the order in which the tokens are written; ["5,1-3,3"] against a
    page count of at least 5 gives [1,2,3,5], and ["1-3,2"] against 5 gives
    [1,2,3]. *)
Theorem parsePageRange_sorted_dedup :
  (forall (E : jsstring) (P : Z),
      StronglySorted Z.lt (parsePageRange E P) /\ NoDup (parsePageRange E P))
  /\ (forall (ts1 ts2 : list jsstring) (P : Z),
         Forall (fun t => ~ In 44%N t) ts1 -> Permutation ts1 ts2 ->
         parsePageRange (join (js ",") ts1) P
         = parsePageRange (join (js ",") ts2) P)
  /\ (forall P : Z, 5 <= P -> parsePageRange (js "5,1-3,3") P = [1; 2; 3; 5])
  /\ parsePageRange (js "1-3,2") 5 = [1; 2; 3].
Proof.
  split; [|split; [|split]].
  - intros E P. split.
    + apply parsePageRange_strict.
    + apply StronglySorted_lt_NoDup, parsePageRange_strict.
  - exact parsePageRange_Permutation.
  - exact resolve_5_1to3_3.
  - reflexivity.
Qed.

Lemma parsePageRange_sorted_dedup_witness :
  parsePageRange (js "5,1-3,3") 7 = [1; 2; 3; 5]
  /\ parsePageRange (join (js ",") [js "5"; js "1-3"; js "3"]) 7
     = parsePageRange (join (js ",") [js "3"; js "5"; js "1-3"]) 7.
Proof.
  split.
  - apply (proj1 (proj2 (proj2 parsePageRange_sorted_dedup)) 7). lia.
  - apply (proj1 (proj2 parsePageRange_sorted_dedup)
             [js "5"; js "1-3"; js "3"] [js "3"; js "5"; js "1-3"] 7).
    + repeat constructor; vm_compute; intuition discriminate.
    + apply Permutation_sym.
      apply (Permutation_cons_append [js "5"; js "1-3"] (js "3")).
Defined.

Section DroppedTokens.

Lemma rejected_pagesOfToken (P : Z) (t : token) :
  rejected P t -> pagesOfToken P t = [].
Proof.
  destruct t as [[n|]|[s|] [e|]]; simpl; try reflexivity.
  - intros H. destruct (Z.geb_spec n 1), (Z.leb_spec n P); simpl;
      try reflexivity; lia.
  - intros H.
    destruct (Z.eqb_spec s 0), (Z.eqb_spec e 0), (Z.leb_spec s e),
      (Z.geb_spec s 1), (Z.leb_spec e P); simpl; try reflexivity; lia.
Qed.

Lemma rejected_pagesOfPart (P : Z) (part : jsstring) :
  rejected P (tokenOf part) -> pagesOfPart P part = [].
Proof. rewrite pagesOfPart_token. apply rejected_pagesOfToken. Qed.

(** What a token that is not turned away pushes. *)
Lemma kept_pagesOfToken (P : Z) (t : token) :
  ~ rejected P t ->
  pagesOfToken P t
  = match t with
    | Single (Some n) => [n]
    | Range (Some s) (Some e) => pushRange s e
    | _ => []
    end.
Proof.
  destruct t as [[n|]|[s|] [e|]]; simpl; try reflexivity.
  - intros H. destruct (Z.geb_spec n 1), (Z.leb_spec n P); simpl;
      try reflexivity; lia.
  - intros H.
    destruct (Z.eqb_spec s 0), (Z.eqb_spec e 0), (Z.leb_spec s e),
      (Z.geb_spec s 1), (Z.leb_spec e P); simpl; try reflexivity; lia.
Qed.

Lemma parsePageRange_kept_In (E : jsstring) (P x : Z) :
  In x (parsePageRange E P)
  <-> exists part, In part (split 44%N E)
                   /\ ~ rejected P (tokenOf part)
                   /\ In x (pagesOfPart P part).
Proof.
  rewrite parsePageRange_In. split.
  - intros (part & Hp & Hx). exists part. repeat split; try assumption.
    intros Hr. rewrite (rejected_pagesOfPart _ _ Hr) in Hx. exact Hx.
  - intros (part & Hp & _ & Hx). now exists part.
Qed.

(** Taking a rejected token out of an expression changes nothing. *)
Lemma parsePageRange_drop (ts1 ts2 : list jsstring) (bad : jsstring)
    (P : Z) :
  Forall (fun t => ~ In 44%N t) (ts1 ++ bad :: ts2) ->
  rejected P (tokenOf bad) ->
  parsePageRange (join (js ",") (ts1 ++ bad :: ts2)) P
  = parsePageRange (join (js ",") (ts1 ++ ts2)) P.
Proof.
  intros Hc Hbad. change (js ",") with [44%N].
  assert (Hc' : Forall (fun t => ~ In 44%N t) (ts1 ++ ts2)).
  { rewrite Forall_forall in *. intros t Ht. apply Hc.
    apply in_app_or in Ht. apply in_or_app. simpl. tauto. }
  apply parsePageRange_ext. intros x.
  rewrite !join_parts_In by assumption.
  split; intros (t & Ht & Hx); exists t; split; try assumption.
  - apply in_app_or in Ht. apply in_or_app.
    destruct Ht as [Ht|[<-|Ht]]; [now left| |now right].
    rewrite (rejected_pagesOfPart _ _ Hbad) in Hx. destruct Hx.
  - apply in_app_or in Ht. apply in_or_app. simpl. tauto.
Qed.

End DroppedTokens.

(** C2, as the code has it.  A token is read with [parseInt], which takes a
    leading numeral and ignores what follows it.  A token in which no number
    could be read, a reversed range, and a number or range reaching outside
    [1..pageCount] push no page; the result holds exactly the pages of the
    other tokens, and taking such a token out of the expression leaves the
    result as it is.  ["1-3,7-9"] against 5 gives [1,2,3]. *)
Theorem rejected_tokens_are_dropped :
  (forall (P : Z) (part : jsstring),
      rejected P (tokenOf part) -> pagesOfPart P part = [])
  /\ (forall (E : jsstring) (P x : Z),
         In x (parsePageRange E P)
         <-> exists part, In part (split 44%N E)
                          /\ ~ rejected P (tokenOf part)
                          /\ In x (pagesOfPart P part))
  /\ (forall (P : Z) (part : jsstring),
         ~ rejected P (tokenOf part) ->
         pagesOfPart P part
         = match tokenOf part with
           | Single (Some n) => [n]
           | Range (Some s) (Some e) => pushRange s e
           | _ => []
           end)
  /\ (forall (ts1 ts2 : list jsstring) (bad : jsstring) (P : Z),
         Forall (fun t => ~ In 44%N t) (ts1 ++ bad :: ts2) ->
         rejected P (tokenOf bad) ->
         parsePageRange (join (js ",") (ts1 ++ bad :: ts2)) P
         = parsePageRange (join (js ",") (ts1 ++ ts2)) P)
  /\ parsePageRange (js "1-3,7-9") 5 = [1; 2; 3].
Proof.
  split; [|split; [|split; [|split]]].
  - exact rejected_pagesOfPart.
  - exact parsePageRange_kept_In.
  - intros P part H. rewrite pagesOfPart_token. now apply kept_pagesOfToken.
  - exact parsePageRange_drop.
  - reflexivity.
Qed.

Lemma rejected_tokens_are_dropped_witness :
  pagesOfPart 5 (js "7-9") = []
  /\ pagesOfPart 5 (js "3-1") = []
  /\ pagesOfPart 5 (js "abc") = []
  /\ pagesOfPart 5 (js "2-4") = [2; 3; 4]
  /\ parsePageRange (join (js ",") ([js "1-3"] ++ js "7-9" :: [js "5"])) 5
     = parsePageRange (join (js ",") ([js "1-3"] ++ [js "5"])) 5.
Proof.
  split; [|split; [|split; [|split]]].
  - apply (proj1 rejected_tokens_are_dropped 5 (js "7-9")).
    vm_compute. right; right; reflexivity.
  - apply (proj1 rejected_tokens_are_dropped 5 (js "3-1")).
    vm_compute. left; reflexivity.
  - apply (proj1 rejected_tokens_are_dropped 5 (js "abc")).
    vm_compute. exact I.
  - apply (proj1 (proj2 (proj2 rejected_tokens_are_dropped)) 5 (js "2-4")).
    vm_compute. intros [H|[H|H]]; discriminate H.
  - apply (proj1 (proj2 (proj2 (proj2 rejected_tokens_are_dropped)))
             [js "1-3"] [js "5"] (js "7-9") 5).
    + repeat constructor; vm_compute; intuition discriminate.
    + vm_compute. right; right; reflexivity.
Defined.

(** C2 as the specification words it fails: ["3abc"] is not a numeral, yet
    [parseInt] reads 3 from it and page 3 is selected. *)
Lemma non_numeric_token_contributes :
  Grammar.isNumericToken (js "3abc") = false
  /\ pagesOfPart 5 (js "3abc") = [3]
  /\ parsePageRange (js "3abc") 5 = [3]
  /\ ~ (forall (part : jsstring) (P : Z),
           Grammar.isNumericToken part = false -> pagesOfPart P part = []).
Proof.
  repeat split.
  intros H. specialize (H (js "3abc") 5 eq_refl). discriminate H.
Qed.

(** ** Numbers written out and read back *)

Section Decimal.
Import Grammar.

Lemma isDecimalDigit_range (c : code_unit) :
  isDecimalDigit c = true <-> (48 <= c <= 57)%N.
Proof.
  unfold isDecimalDigit. rewrite andb_true_iff, !N.leb_le. tauto.
Qed.

Ltac each_digit c H :=
  apply isDecimalDigit_range in H;
  assert (c = 48 \/ c = 49 \/ c = 50 \/ c = 51 \/ c = 52 \/ c = 53
          \/ c = 54 \/ c = 55 \/ c = 56 \/ c = 57)%N as Hcases by lia;
  clear H;
  repeat (destruct Hcases as [->|Hcases]); [..|subst c].

Lemma digit_not_space (c : code_unit) :
  isDecimalDigit c = true -> isWhiteSpace c = false.
Proof. intros H. each_digit c H; reflexivity. Qed.

Lemma digit_value (c : code_unit) :
  isDecimalDigit c = true ->
  digitValue c = Some (Z.of_N (c - 48))
  /\ (Z.of_N (c - 48) <? 10) = true.
Proof. intros H. each_digit c H; split; reflexivity. Qed.

Lemma digit_plain (c : code_unit) :
  isDecimalDigit c = true ->
  c <> 44%N /\ c <> 45%N /\ c <> 43%N /\ c <> 120%N /\ c <> 88%N.
Proof. intros H. apply isDecimalDigit_range in H. lia. Qed.

Lemma radixDigits_decimal (ds : jsstring) :
  forallb isDecimalDigit ds = true ->
  radixDigits 10 ds = map (fun c => Z.of_N (c - 48)) ds.
Proof.
  induction ds as [|c ds IH]; simpl; [reflexivity|].
  rewrite andb_true_iff. intros [Hc Hds].
  destruct (digit_value c Hc) as [-> ->]. now rewrite IH.
Qed.

Lemma trimStart_digit (c : code_unit) (s : jsstring) :
  isDecimalDigit c = true -> trimStart (c :: s) = c :: s.
Proof. intros H. simpl. now rewrite digit_not_space. Qed.

Lemma trim_numeral (ds : jsstring) :
  forallb isDecimalDigit ds = true -> trim ds = ds.
Proof.
  intros H. unfold trim, trimEnd.
  assert (Hs : trimStart ds = ds).
  { destruct ds as [|c ds]; [reflexivity|].
    simpl in H. apply andb_true_iff in H.
    now apply trimStart_digit. }
  rewrite Hs.
  assert (Hr : forallb isDecimalDigit (rev ds) = true).
  { rewrite forallb_forall in *. intros c Hc. apply H.
    now apply in_rev. }
  assert (Ht : trimStart (rev ds) = rev ds).
  { destruct (rev ds) as [|c r]; [reflexivity|].
    simpl in Hr. apply andb_true_iff in Hr.
    now apply trimStart_digit. }
  now rewrite Ht, rev_involutive.
Qed.

Lemma numeral_no_char (x : code_unit) (ds : jsstring) :
  isDecimalDigit x = false ->
  forallb isDecimalDigit ds = true -> ~ In x ds.
Proof.
  intros Hx H Hin. rewrite forallb_forall in H.
  specialize (H x Hin). congruence.
Qed.

(** [parseInt] reads a numeral as the number it writes. *)
Lemma parseInt_numeral (ds : jsstring) :
  isNumeral ds = true -> parseInt ds = Some (digitsValue ds).
Proof.
  destruct ds as [|c ds]; [discriminate|].
  unfold isNumeral. intros H.
  pose proof H as Hall. simpl in H. apply andb_true_iff in H.
  destruct H as [Hc Hds].
  unfold parseInt. rewrite trimStart_digit by assumption.
  destruct (digit_plain c Hc) as (_ & Hm & Hp & _).
  rewrite (proj2 (N.eqb_neq c 45) Hm), (proj2 (N.eqb_neq c 43) Hp).
  assert (Hend :
    match radixDigits 10 (c :: ds) with
    | [] => NaN
    | z :: l => Some (1 * mathInt 10 (z :: l))
    end = Some (digitsValue (c :: ds))).
  { rewrite (radixDigits_decimal (c :: ds) Hall).
    unfold digitsValue. cbn [map]. f_equal. apply Z.mul_1_l. }
  destruct ds as [|x r]; [exact Hend|].
  simpl in Hds. apply andb_true_iff in Hds. destruct Hds as [Hx _].
  destruct (digit_plain x Hx) as (_ & _ & _ & H1 & H2).
  rewrite (proj2 (N.eqb_neq x 120) H1), (proj2 (N.eqb_neq x 88) H2).
  rewrite andb_false_r. exact Hend.
Qed.

Lemma digitsValue_snoc (ds : jsstring) (c : code_unit) :
  digitsValue (ds ++ [c]) = digitsValue ds * 10 + Z.of_N (c - 48).
Proof.
  unfold digitsValue, mathInt. now rewrite map_app, fold_left_app.
Qed.

Lemma decimal_digit_char (n : Z) :
  0 <= n ->
  isDecimalDigit (48 + Z.to_N (n mod 10))%N = true
  /\ Z.of_N (48 + Z.to_N (n mod 10) - 48)%N = n mod 10.
Proof.
  intros H. pose proof (Z.mod_pos_bound n 10 ltac:(lia)).
  split; [apply isDecimalDigit_range|]; lia.
Qed.

(** With enough fuel, [decimalDigits] puts a numeral of value [n] in
    front of the accumulator. *)
Lemma decimalDigits_spec (fuel : nat) :
  forall (n : Z) (acc : jsstring),
    0 <= n < 2 ^ (Z.of_nat fuel + 1) ->
    exists ds,
      decimalDigits fuel n acc = ds ++ acc
      /\ isNumeral ds = true /\ digitsValue ds = n.
Proof.
  assert (One : forall n acc, 0 <= n < 10 ->
            exists ds, (48 + Z.to_N (n mod 10))%N :: acc = ds ++ acc
                       /\ isNumeral ds = true /\ digitsValue ds = n).
  { intros n acc Hn. exists [(48 + Z.to_N (n mod 10))%N].
    destruct (decimal_digit_char n (proj1 Hn)) as [Hd Hv].
    split; [reflexivity|]. split.
    - cbn [isNumeral forallb]. now rewrite Hd.
    - unfold digitsValue, mathInt. cbn [map fold_left]. rewrite Hv.
      rewrite Z.mod_small; lia. }
  induction fuel as [|f IH]; intros n acc Hn.
  - cbn [decimalDigits]. apply One.
    change (2 ^ (Z.of_nat 0 + 1)) with 2 in Hn. lia.
  - cbn [decimalDigits].
    destruct (Z.ltb_spec n 10) as [L|L]; [apply One; lia|].
    destruct (decimal_digit_char n (proj1 Hn)) as [Hd Hv].
    assert (Hq : 0 <= n / 10 < 2 ^ (Z.of_nat f + 1)).
    { split; [apply Z.div_pos; lia|].
      apply Z.div_lt_upper_bound; [lia|].
      replace (Z.of_nat (S f) + 1) with (Z.succ (Z.of_nat f + 1)) in Hn
        by lia.
      rewrite Z.pow_succ_r in Hn by lia. lia. }
    destruct (IH (n / 10) ((48 + Z.to_N (n mod 10))%N :: acc) Hq)
      as (ds & E & Hnum & Hval).
    exists (ds ++ [(48 + Z.to_N (n mod 10))%N]).
    split; [|split].
    + rewrite E, <- app_assoc. reflexivity.
    + destruct ds as [|c ds]; [discriminate|].
      unfold isNumeral in *.
      change ((c :: ds) ++ [(48 + Z.to_N (n mod 10))%N])
        with (c :: (ds ++ [(48 + Z.to_N (n mod 10))%N])).
      change (forallb isDecimalDigit
                ((c :: ds) ++ [(48 + Z.to_N (n mod 10))%N]) = true).
      rewrite forallb_app, Hnum. cbn [forallb]. now rewrite Hd.
    + rewrite digitsValue_snoc, Hval, Hv.
      pose proof (Z.div_mod n 10 ltac:(lia)). lia.
Qed.

Lemma numberToString_numeral (n : Z) :
  0 <= n ->
  isNumeral (numberToString n) = true
  /\ digitsValue (numberToString n) = n.
Proof.
  intros Hn. unfold numberToString.
  destruct (Z.ltb_spec n 0) as [L|_]; [lia|].
  assert (Hb : 0 <= n < 2 ^ (Z.of_nat (Z.to_nat (Z.log2 n)) + 1)).
  { split; [assumption|].
    rewrite Z2Nat.id by apply Z.log2_nonneg.
    destruct (Z.eq_dec n 0) as [->|Hz]; [reflexivity|].
    replace (Z.log2 n + 1) with (Z.succ (Z.log2 n)) by lia.
    apply Z.log2_spec. lia. }
  destruct (decimalDigits_spec _ n [] Hb) as (ds & E & Hnum & Hval).
  rewrite E, app_nil_r. now split.
Qed.

Lemma isNumeral_forallb (ds : jsstring) :
  isNumeral ds = true -> forallb isDecimalDigit ds = true.
Proof. destruct ds; [discriminate | trivial]. Qed.

(** A page number written out is read back as that page. *)
Lemma pagesOfPart_numberToString (P n : Z) :
  1 <= n <= P -> pagesOfPart P (numberToString n) = [n].
Proof.
  intros Hn.
  destruct (numberToString_numeral n ltac:(lia)) as [Hnum Hval].
  pose proof (isNumeral_forallb _ Hnum) as Hall.
  unfold pagesOfPart. rewrite (trim_numeral _ Hall).
  assert (Hd : includes 45%N (numberToString n) = false).
  { apply includes_false_iff. now apply numeral_no_char. }
  rewrite Hd, (parseInt_numeral _ Hnum), Hval.
  destruct (Z.geb_spec n 1), (Z.leb_spec n P); simpl;
    try reflexivity; lia.
Qed.

Lemma numberToString_no_comma (n : Z) :
  0 <= n -> ~ In 44%N (numberToString n).
Proof.
  intros Hn. destruct (numberToString_numeral n Hn) as [Hnum _].
  apply numeral_no_char; [reflexivity | now apply isNumeral_forallb].
Qed.

End Decimal.

Section Idempotence.
Import Grammar.

Lemma pages_of_written_numbers (P : Z) (l : list Z) :
  Forall (fun x => 1 <= x <= P) l ->
  flat_map (pagesOfPart P) (map numberToString l) = l.
Proof.
  induction 1 as [|x l Hx Hl IH]; simpl; [reflexivity|].
  now rewrite pagesOfPart_numberToString, IH.
Qed.

(** An ascending list of pages of the document resolves to itself once
    written out. *)
Lemma parsePageRange_stringify (P : Z) (l : list Z) :
  StronglySorted Z.lt l -> Forall (fun x => 1 <= x <= P) l ->
  parsePageRange (stringify l) P = l.
Proof.
  intros Hs Hb. destruct l as [|x l]; [reflexivity|].
  rewrite parsePageRange_unfold. unfold stringify.
  change (js ",") with [44%N]. rewrite split_join.
  - rewrite (pages_of_written_numbers P _ Hb).
    rewrite setOf_fixed by (now apply StronglySorted_lt_NoDup).
    now apply sortAscending_fixed.
  - apply Forall_map. eapply Forall_impl; [|exact Hb].
    intros y Hy. cbv beta in Hy. apply numberToString_no_comma. lia.
  - discriminate.
Qed.

End Idempotence.

(** C9.  Resolving is idempotent through the text: the pages an expression
    resolves to, written out as a comma-separated expression and resolved
    against the same page count, are the same pages.  ([parsePageRange] is
    a function of its two arguments: it has no state to touch.) *)
Theorem parsePageRange_idempotent :
  forall (E : jsstring) (P : Z),
    parsePageRange (Grammar.stringify (parsePageRange E P)) P
    = parsePageRange E P.
Proof.
  intros E P. apply parsePageRange_stringify.
  - apply parsePageRange_strict.
  - apply Forall_forall. intros x. apply parsePageRange_bounds.
Qed.

Example stringify_example :
  Grammar.stringify (parsePageRange (js "12, 5,1-3,3") 20) = js "1,2,3,5,12".
Proof. reflexivity. Qed.

(** ** Running the handlers *)

Section Running.
Import Effects Index PDFManipulator.
Context {Page : Type} {lib : PdfLib Page}.

Lemma strEq_eq (a b : jsstring) : strEq a b = true <-> a = b.
Proof.
  revert b; induction a as [|x a IH]; intros [|y b]; simpl;
    try (split; [discriminate | discriminate]); [tauto|].
  rewrite andb_true_iff, N.eqb_eq, IH. split.
  - intros [-> ->]; reflexivity.
  - intros E; inversion E; auto.
Qed.

Lemma strEq_refl (a : jsstring) : strEq a a = true.
Proof. now apply strEq_eq. Qed.

Lemma bind_ret {A B} (a : A) (k : A -> M Page B) :
  bind (ret a) k = k a.
Proof. unfold bind, ret. now destruct (k a). Qed.

Lemma bind_pure {A B} (a : A) (k : A -> M Page B) :
  bind ([], inl a) k = k a.
Proof. exact (bind_ret a k). Qed.

Lemma bind_emit {B} (e : event Page) (k : unit -> M Page B) :
  bind (emit e) k = (e :: fst (k tt), snd (k tt)).
Proof. unfold bind, emit. now destruct (k tt). Qed.

Lemma copyPages_slice (pre mid suf : list Page) :
  copyPages (pre ++ mid ++ suf)
    (map Z.of_nat (seq (length pre) (length mid))) = ret mid.
Proof.
  revert pre; induction mid as [|p mid IH]; intros pre; [reflexivity|].
  cbn [length seq map copyPages].
  unfold pageAt. destruct (Z.ltb_spec (Z.of_nat (length pre)) 0); [lia|].
  rewrite Nat2Z.id, nth_error_app2, Nat.sub_diag by lia.
  cbn [nth_error app].
  specialize (IH (pre ++ [p])).
  rewrite <- app_assoc, length_app in IH. cbn [length app] in IH.
  rewrite Nat.add_1_r in IH. rewrite IH. reflexivity.
Qed.

Lemma copyPages_all (pdf : list Page) :
  copyPages pdf (getPageIndices pdf) = ret pdf.
Proof.
  pose proof (copyPages_slice [] pdf []) as H.
  cbn [app length] in H. now rewrite app_nil_r in H.
Qed.

(** Pages [1..n] of a document that starts with the [n] pages of [A]. *)
Lemma copyPages_front (A B : list Page) :
  copyPages (A ++ B)
    (map (fun p => p - 1) (pushRange 1 (Z.of_nat (length A)))) = ret A.
Proof.
  replace (map (fun p => p - 1) (pushRange 1 (Z.of_nat (length A))))
    with (map Z.of_nat (seq 0 (length A))).
  - exact (copyPages_slice [] A B).
  - unfold pushRange. rewrite map_map.
    replace (Z.to_nat (Z.of_nat (length A) + 1 - 1)) with (length A) by lia.
    apply map_ext. intros k. lia.
Qed.

(** *** Merge *)

Lemma mergeLoop_from (fs : list (UploadedFile Page))
    (order : list jsstring) (acc : list Page) :
  forallb (loadable fs) order = true ->
  forOf order
    (fun mergedPdf fileId =>
       match findFile fs fileId with
       | None => ret mergedPdf
       | Some f =>
           bind (load f) (fun pdf =>
           bind (copyPages pdf (getPageIndices pdf)) (fun pages =>
           ret (mergedPdf ++ pages)))
       end) acc
  = ret (acc ++ flat_map (pagesOfId fs) order).
Proof.
  revert acc; induction order as [|i order IH]; intros acc H.
  - cbn [forOf flat_map]. now rewrite app_nil_r.
  - cbn [forallb] in H. apply andb_true_iff in H. destruct H as [Hi Ho].
    cbn [forOf flat_map]. unfold loadable, pagesOfId in *.
    destruct (findFile fs i) as [f|].
    + unfold load. destruct (f_pdf (file f)) as [pdf|]; [|discriminate].
      rewrite bind_ret, copyPages_all, !bind_ret, IH by assumption.
      now rewrite app_assoc.
    + rewrite bind_ret, IH by assumption. reflexivity.
Qed.

Lemma mergeLoop_ok (fs : list (UploadedFile Page)) (order : list jsstring) :
  forallb (loadable fs) order = true ->
  mergeLoop fs order = ret (flat_map (pagesOfId fs) order).
Proof. intros H. unfold mergeLoop. now rewrite mergeLoop_from. Qed.

(** The loop itself hands nothing to the browser. *)
Lemma mergeLoop_silent (fs : list (UploadedFile Page))
    (order : list jsstring) :
  fst (mergeLoop fs order) = [].
Proof.
  unfold mergeLoop. generalize (@nil Page) as acc.
  induction order as [|i order IH]; intros acc; [reflexivity|].
  cbn [forOf].
  destruct (findFile fs i) as [f|].
  - unfold load. destruct (f_pdf (file f)) as [pdf|]; [|reflexivity].
    rewrite bind_ret, copyPages_all, !bind_ret. apply IH.
  - rewrite bind_ret. apply IH.
Qed.

Lemma mergeLoop_throws (fs : list (UploadedFile Page))
    (order : list jsstring) :
  forallb (loadable fs) order = false ->
  exists msg, mergeLoop fs order = ([], inr msg).
Proof.
  unfold mergeLoop. generalize (@nil Page) as acc.
  induction order as [|i order IH]; intros acc H; [discriminate|].
  cbn [forallb] in H. cbn [forOf]. unfold loadable in H at 1.
  destruct (findFile fs i) as [f|].
  - unfold load. destruct (f_pdf (file f)) as [pdf|].
    + rewrite bind_ret, copyPages_all, !bind_ret. now apply IH.
    + eexists. reflexivity.
  - rewrite bind_ret. now apply IH.
Qed.

(** The three ways a merge of two files or more can go. *)
Lemma mergePDFs_cases (st : State Page) :
  (2 <= length (files st))%nat ->
  mergePDFs st
  = match mergeLoop (files st) (mergeOrder st) with
    | (_, inl merged) =>
        if canSave merged then (mergeDone st (savedPages merged), inl tt)
        else (mergeFailed, inl tt)
    | (_, inr _) => (mergeFailed, inl tt)
    end.
Proof.
  intros H. unfold mergePDFs.
  destruct (Nat.ltb_spec (length (files st)) 2) as [L|_]; [lia|].
  pose proof (mergeLoop_silent (files st) (mergeOrder st)) as Hs.
  destruct (mergeLoop (files st) (mergeOrder st)) as [evs [merged|msg]];
    cbn [fst] in Hs; subst evs.
  - rewrite bind_pure. unfold saveAndDownload.
    destruct (canSave merged); reflexivity.
  - reflexivity.
Qed.

(** Saving writes a document that has pages as it is. *)
Lemma savedPages_nonempty (doc : list Page) :
  doc <> [] -> savedPages doc = doc.
Proof. destruct doc; [contradiction | reflexivity]. Qed.

Lemma findFile_id (fs : list (UploadedFile Page)) (f : UploadedFile Page) :
  NoDup (map id fs) -> In f fs -> findFile fs (id f) = Some f.
Proof.
  unfold findFile.
  induction fs as [|g fs IH]; intros Hnd Hin; [contradiction|].
  cbn [map] in Hnd. inversion Hnd as [|? ? Hg Hfs]; subst.
  cbn [find]. destruct Hin as [->|Hin].
  - now rewrite strEq_refl.
  - destruct (strEq (id g) (id f)) eqn:E.
    + apply strEq_eq in E. exfalso. apply Hg. rewrite E.
      now apply in_map.
    + now apply IH.
Qed.

(** With distinct ids, the ids of files stand for those files. *)
Lemma ordered_files (fs ordered : list (UploadedFile Page))
    (docs : list (list Page)) :
  NoDup (map id fs) -> incl ordered fs ->
  map (fun f => f_pdf (file f)) ordered = map Some docs ->
  forallb (loadable fs) (map id ordered) = true
  /\ flat_map (pagesOfId fs) (map id ordered) = concat docs.
Proof.
  intros Hnd. revert docs.
  induction ordered as [|f ordered IH]; intros docs Hin Hd.
  - destruct docs; [split; reflexivity | discriminate].
  - destruct docs as [|d docs]; [discriminate|].
    cbn [map] in Hd. injection Hd as Hf Hd.
    assert (Hff : findFile fs (id f) = Some f).
    { apply findFile_id; [assumption|]. apply Hin. now left. }
    destruct (IH docs) as [Hl Hp]; [|assumption|].
    { intros g Hg. apply Hin. now right. }
    cbn [map forallb flat_map concat]. unfold loadable, pagesOfId in *.
    now rewrite Hff, Hf, Hl, Hp.
Qed.

End Running.

(** C4.  With the files told apart by their ids and arranged in some order,
    a merge of documents that load and save, with a page among them, hands
    the browser one file, [merged_document.pdf], whose pages are those of
    the documents one after the other, in that order and each in its own
    order; copying pages [1..A.pageCount] out of it gives back the first
    document's pages. *)
Theorem merge_concatenates {Page : Type} {lib : PdfLib Page} :
  forall (st : PDFManipulator.State Page)
         (ordered : list (Index.UploadedFile Page))
         (docs : list (list Page)),
    (2 <= length (PDFManipulator.files st))%nat ->
    NoDup (map Index.id (PDFManipulator.files st)) ->
    incl ordered (PDFManipulator.files st) ->
    PDFManipulator.mergeOrder st = map Index.id ordered ->
    map (fun f => Index.f_pdf (Index.file f)) ordered = map Some docs ->
    concat docs <> [] ->
    canSave (concat docs) = true ->
    PDFManipulator.mergePDFs st
    = (PDFManipulator.mergeDone st (concat docs), inl tt)
    /\ Effects.downloads (PDFManipulator.mergePDFs st)
       = [(js "merged_document.pdf", concat docs)]
    /\ forall A rest, docs = A :: rest ->
         PDFManipulator.copyPages (concat docs)
           (map (fun p => p - 1) (pushRange 1 (Z.of_nat (length A))))
         = Effects.ret A.
Proof.
  intros st ordered docs H2 Hnd Hin Ho Hd Hne Hs.
  destruct (ordered_files _ _ _ Hnd Hin Hd) as [Hl Hp].
  assert (E : PDFManipulator.mergePDFs st
              = (PDFManipulator.mergeDone st (concat docs), inl tt)).
  { rewrite mergePDFs_cases by assumption.
    rewrite Ho, mergeLoop_ok by assumption.
    unfold Effects.ret. now rewrite Hp, Hs, savedPages_nonempty. }
  split; [exact E|]. split.
  - rewrite E. reflexivity.
  - intros A rest ->. cbn [concat]. apply copyPages_front.
Qed.

Lemma merge_concatenates_witness :
  Effects.downloads
    (PDFManipulator.mergePDFs (lib := Samples.savesAll)
       (Samples.merging [Samples.fileA; Samples.fileB]))
  = [(js "merged_document.pdf", [1; 2; 3; 4; 5]%nat)].
Proof.
  apply (merge_concatenates (lib := Samples.savesAll)
           (Samples.merging [Samples.fileA; Samples.fileB])
           [Samples.fileA; Samples.fileB] [[1; 2; 3]; [4; 5]]%nat).
  - simpl. lia.
  - repeat constructor; simpl; intuition discriminate.
  - apply incl_refl.
  - reflexivity.
  - reflexivity.
  - discriminate.
  - reflexivity.
Defined.

(** C5, as the code has it.  [mergePDFs] never looks at a document's page
    count.  With two files or more it goes through whenever the documents
    load and the merged one saves; a document of zero pages adds no page to
    the result and stops nothing.  The file holds the pages of the documents
    one after the other, and when none of them has a page, the one blank
    page that saving adds.  It fails, handing the browser nothing, when
    fewer than two files are given, when a document does not load, or when
    the merged document does not save. *)
Theorem merge_takes_empty_documents {Page : Type} {lib : PdfLib Page} :
  forall st : PDFManipulator.State Page,
    let fs := PDFManipulator.files st in
    let order := PDFManipulator.mergeOrder st in
    let merged := flat_map (PDFManipulator.pagesOfId fs) order in
    ((length fs < 2)%nat ->
       Effects.failed (PDFManipulator.mergePDFs st) = true
       /\ Effects.downloads (PDFManipulator.mergePDFs st) = [])
    /\ ((2 <= length fs)%nat ->
        forallb (PDFManipulator.loadable fs) order = true ->
        canSave merged = true ->
        PDFManipulator.mergePDFs st
        = (PDFManipulator.mergeDone st (PDFManipulator.savedPages merged),
           inl tt)
        /\ (merged <> [] -> PDFManipulator.savedPages merged = merged)
        /\ (merged = [] -> PDFManipulator.savedPages merged = [blankPage]))
    /\ ((2 <= length fs)%nat ->
        forallb (PDFManipulator.loadable fs) order = false
        \/ canSave merged = false ->
        PDFManipulator.mergePDFs st = (PDFManipulator.mergeFailed, inl tt))
    /\ (forall f, PDFManipulator.findFile fs (Index.id f) = Some f ->
                  Index.f_pdf (Index.file f) = Some [] ->
                  PDFManipulator.pagesOfId fs (Index.id f) = []).
Proof.
  intros st fs order merged. subst fs order merged.
  split; [|split; [|split]].
  - intros H. unfold PDFManipulator.mergePDFs.
    destruct (Nat.ltb_spec (length (PDFManipulator.files st)) 2); [|lia].
    split; reflexivity.
  - intros H2 Hl Hs. split; [|split].
    + rewrite mergePDFs_cases by assumption.
      rewrite mergeLoop_ok by assumption. unfold Effects.ret.
      now rewrite Hs.
    + apply savedPages_nonempty.
    + intros ->. reflexivity.
  - intros H2 H. rewrite mergePDFs_cases by assumption.
    destruct (forallb (PDFManipulator.loadable (PDFManipulator.files st))
                (PDFManipulator.mergeOrder st)) eqn:Hl.
    + destruct H as [H|H]; [discriminate|].
      rewrite mergeLoop_ok by assumption. unfold Effects.ret. now rewrite H.
    + destruct (mergeLoop_throws _ _ Hl) as (msg & ->). reflexivity.
  - intros f Hf Hp. unfold PDFManipulator.pagesOfId. now rewrite Hf, Hp.
Qed.

Lemma merge_takes_empty_documents_witness :
  PDFManipulator.mergePDFs (lib := Samples.savesAll)
    (Samples.merging [Samples.fileA; Samples.fileEmpty; Samples.fileB])
  = (PDFManipulator.mergeDone
       (Samples.merging [Samples.fileA; Samples.fileEmpty; Samples.fileB])
       [1; 2; 3; 4; 5]%nat, inl tt).
Proof.
  apply (proj1 (proj2 (merge_takes_empty_documents (lib := Samples.savesAll)
           (Samples.merging
              [Samples.fileA; Samples.fileEmpty; Samples.fileB])))
           ltac:(simpl; lia) eq_refl eq_refl).
Defined.

(** C5 as the specification words it fails: merging a three-page document
    with one of zero pages goes through and a file is handed over. *)
Lemma merge_with_empty_document_succeeds :
  let st := Samples.merging [Samples.fileA; Samples.fileEmpty] in
  Index.f_pdf (Index.file Samples.fileEmpty) = Some []
  /\ Effects.failed (PDFManipulator.mergePDFs (lib := Samples.savesAll) st)
     = false
  /\ Effects.downloads (PDFManipulator.mergePDFs (lib := Samples.savesAll) st)
     = [(js "merged_document.pdf", [1; 2; 3]%nat)].
Proof. split; [|split]; reflexivity. Qed.

(** ** Split *)

Section Splitting.
Import Effects Index PDFManipulator.
Context {Page : Type} {lib : PdfLib Page}.

Lemma trimStart_nil (s : jsstring) :
  trimStart s = [] -> forallb isWhiteSpace s = true.
Proof.
  induction s as [|c s IH]; simpl; [reflexivity|].
  destruct (isWhiteSpace c); [exact IH | discriminate].
Qed.

Lemma trimStart_head (s : jsstring) :
  match trimStart s with
  | [] => True
  | c :: _ => isWhiteSpace c = false
  end.
Proof.
  induction s as [|c s IH]; simpl; [exact I|].
  destruct (isWhiteSpace c) eqn:E; [exact IH | exact E].
Qed.

Lemma trim_nil_blank (s : jsstring) :
  trim s = [] -> forallb isWhiteSpace s = true.
Proof.
  unfold trim, trimEnd. intros H.
  apply (f_equal (@rev code_unit)) in H.
  rewrite rev_involutive in H. cbn [rev] in H.
  apply trimStart_nil in H.
  pose proof (trimStart_head s) as Hh.
  destruct (trimStart s) as [|c r] eqn:E; [now apply trimStart_nil|].
  exfalso. rewrite forallb_forall in H.
  specialize (H c). rewrite <- in_rev in H.
  specialize (H (or_introl eq_refl)). congruence.
Qed.

(** A blank range selects nothing. *)
Lemma parsePageRange_blank (E : jsstring) (P : Z) :
  trim E = [] -> parsePageRange E P = [].
Proof.
  intros H. pose proof (trim_nil_blank E H) as Hb.
  rewrite parsePageRange_unfold, split_no_sep.
  - cbn [flat_map]. unfold pagesOfPart. rewrite H. reflexivity.
  - intros Hin. rewrite forallb_forall in Hb.
    specialize (Hb _ Hin). discriminate Hb.
Qed.

Lemma singlePage_in_bounds (pdf : list Page) (p : Z) :
  1 <= p <= Z.of_nat (length pdf) ->
  exists pg, pageAt pdf (p - 1) = Some pg /\ singlePage pdf p = [pg].
Proof.
  intros H. unfold singlePage, pageAt.
  destruct (Z.ltb_spec (p - 1) 0); [lia|].
  destruct (nth_error pdf (Z.to_nat (p - 1))) as [pg|] eqn:E; [eauto|].
  apply nth_error_None in E. lia.
Qed.

Lemma copyPages_selected (pdf : list Page) (pages : list Z) :
  Forall (fun p => 1 <= p <= Z.of_nat (length pdf)) pages ->
  copyPages pdf (map (fun p => p - 1) pages)
  = ret (flat_map (singlePage pdf) pages).
Proof.
  induction 1 as [|p r Hp Hr IH]; [reflexivity|].
  destruct (singlePage_in_bounds pdf p Hp) as (pg & Hpg & Hs).
  cbn [map copyPages flat_map]. now rewrite Hpg, Hs, IH.
Qed.

(** The loop over the pages downloads as it goes and stops at the first
    document that does not save. *)
Lemma splitIndividual_run (f : UploadedFile Page) (pdf : list Page)
    (pages : list Z) :
  Forall (fun p => 1 <= p <= Z.of_nat (length pdf)) pages ->
  splitIndividual f pdf pages
  = (map (downloadPage f pdf) (savedPrefix pdf pages),
     if allSave pdf pages then inl tt
     else inr (js "Failed to save document")).
Proof.
  unfold splitIndividual, allSave.
  set (body := fun (_ : unit) (pageNum : Z) => _).
  induction 1 as [|p r Hp Hr IH]; [reflexivity|].
  destruct (singlePage_in_bounds pdf p Hp) as (pg & Hpg & Hs).
  change (forOf (p :: r) body tt) with (bind (body tt p) (forOf r body)).
  assert (Hbody : body tt p = saveAndDownload (pageFileName f p) [pg]).
  { unfold body. cbn [copyPages]. rewrite Hpg, !bind_ret. reflexivity. }
  rewrite Hbody. unfold saveAndDownload.
  cbn [savedPrefix forallb]. rewrite Hs.
  destruct (canSave [pg]); [|reflexivity].
  rewrite bind_emit, IH. cbn [map andb fst snd].
  unfold downloadPage. rewrite Hs. reflexivity.
Qed.

Lemma savedPrefix_all (pdf : list Page) (pages : list Z) :
  allSave pdf pages = true -> savedPrefix pdf pages = pages.
Proof.
  unfold allSave. induction pages as [|p r IH]; [reflexivity|].
  cbn [forallb savedPrefix]. rewrite andb_true_iff. intros [-> Hr].
  now rewrite IH.
Qed.

(** What is saved is a beginning of the pages, and a proper one when
    some document does not save. *)
Lemma savedPrefix_prefix (pdf : list Page) (pages : list Z) :
  exists rest, pages = savedPrefix pdf pages ++ rest
               /\ (allSave pdf pages = false -> rest <> []).
Proof.
  unfold allSave. induction pages as [|p r (rest & E & Hr)].
  - exists []. split; [reflexivity | discriminate].
  - cbn [savedPrefix forallb].
    destruct (canSave (singlePage pdf p)).
    + exists rest. split; [cbn [app]; now f_equal | exact Hr].
    + exists (p :: r). split; [reflexivity | discriminate].
Qed.

(** How [splitPDF] goes on one loadable file and a range that is not
    blank. *)
Lemma splitPDF_run (st : State Page) (f : UploadedFile Page)
    (pdf : list Page) :
  files st = [f] -> f_pdf (file f) = Some pdf ->
  trim (splitRange st) <> [] ->
  let pages := parsePageRange (splitRange st) (Z.of_nat (length pdf)) in
  splitPDF st
  = match pages with
    | [] => (splitFailed [], inl tt)
    | _ :: _ =>
        if strEq (splitMode st) (js "range") then
          let doc := flat_map (singlePage pdf) pages in
          if canSave doc then
            (splitDone st pages
               [Download (baseName f ++ js "_pages_" ++ splitRange st
                          ++ js ".pdf") doc], inl tt)
          else (splitFailed [], inl tt)
        else
          let made := map (downloadPage f pdf) (savedPrefix pdf pages) in
          if allSave pdf pages then (splitDone st pages made, inl tt)
          else (splitFailed made, inl tt)
    end.
Proof.
  intros Hf Hp Ht pages.
  assert (Hb : Forall (fun p => 1 <= p <= Z.of_nat (length pdf)) pages).
  { apply Forall_forall. intros x. apply parsePageRange_bounds. }
  unfold splitPDF. rewrite Hf.
  destruct (trim (splitRange st)) as [|c r]; [contradiction|].
  unfold splitBody, load. rewrite Hp, bind_ret. cbv zeta.
  fold pages. destruct pages as [|p ps] eqn:E; [reflexivity|].
  change (length (p :: ps) =? 0)%nat with false. cbv iota.
  rewrite bind_ret. rewrite <- E in *.
  unfold splitDone.
  destruct (strEq (splitMode st) (js "range")).
  - unfold extractRange. rewrite copyPages_selected, bind_ret by assumption.
    unfold saveAndDownload.
    assert (Hne : flat_map (singlePage pdf) pages <> []).
    { rewrite E. rewrite E in Hb. inversion Hb as [|? ? Hp1 _]; subst.
      destruct (singlePage_in_bounds pdf p Hp1) as (pg & _ & Hs).
      cbn [flat_map]. rewrite Hs. discriminate. }
    rewrite (savedPages_nonempty _ Hne).
    destruct (canSave (flat_map (singlePage pdf) pages)); reflexivity.
  - rewrite splitIndividual_run by assumption.
    destruct (allSave pdf pages).
    + unfold bind, emit, tryCatchFinally, bind.
      cbn [app]. rewrite ?app_nil_r, <- ?app_assoc. reflexivity.
    + unfold splitFailed, bind, emit, tryCatchFinally, bind.
      cbn [app]. rewrite ?app_nil_r, <- ?app_assoc. reflexivity.
Qed.

End Splitting.

Section Outcomes.
Import Effects Index PDFManipulator.
Context {Page : Type} {lib : PdfLib Page}.

Lemma downloads_made {A} (f : UploadedFile Page) (pdf : list Page)
    (l : list Z) (before after : list (event Page)) (r : A + jsstring) :
  downloads (before ++ map (downloadPage f pdf) l ++ after, r)
  = downloads (before, r) ++ map (pageDownload f pdf) l
    ++ downloads (after, r).
Proof.
  unfold downloads, log. cbn [fst].
  rewrite !flat_map_app. do 2 f_equal.
  induction l as [|p l IH]; [reflexivity|].
  cbn [map flat_map app]. now rewrite IH.
Qed.

Lemma failed_made {A} (f : UploadedFile Page) (pdf : list Page)
    (l : list Z) (before after : list (event Page)) (r : A + jsstring) :
  failed (before ++ map (downloadPage f pdf) l ++ after, r)
  = failed (before, r) || failed (after, r).
Proof.
  unfold failed, log. cbn [fst].
  rewrite !existsb_app. f_equal.
  replace (existsb _ (map (downloadPage f pdf) l)) with false;
    [reflexivity|].
  induction l as [|p l IH]; [reflexivity|]. exact IH.
Qed.

Lemma splitDone_outcome (st : State Page) (f : UploadedFile Page)
    (pdf : list Page) (pages l : list Z) :
  downloads (splitDone st pages (map (downloadPage f pdf) l), inl tt)
  = map (pageDownload f pdf) l
  /\ failed (splitDone st pages (map (downloadPage f pdf) l), inl tt)
     = false.
Proof.
  unfold splitDone. split.
  - match goal with
    | |- downloads (_ :: _ ++ ?t, ?r) = _ =>
        rewrite (downloads_made f pdf l [SetIsProcessing true] t r
                 : downloads (SetIsProcessing true
                              :: map (downloadPage f pdf) l ++ t, r) = _)
    end.
    cbn. now rewrite app_nil_r.
  - match goal with
    | |- failed (_ :: _ ++ ?t, ?r) = _ =>
        rewrite (failed_made f pdf l [SetIsProcessing true] t r
                 : failed (SetIsProcessing true
                           :: map (downloadPage f pdf) l ++ t, r) = _)
    end.
    reflexivity.
Qed.

Lemma splitFailed_outcome (f : UploadedFile Page) (pdf : list Page)
    (l : list Z) :
  downloads (splitFailed (map (downloadPage f pdf) l), inl tt)
  = map (pageDownload f pdf) l
  /\ failed (splitFailed (map (downloadPage f pdf) l), inl tt) = true.
Proof.
  unfold splitFailed. split.
  - match goal with
    | |- downloads (_ :: _ ++ ?t, ?r) = _ =>
        rewrite (downloads_made f pdf l [SetIsProcessing true] t r
                 : downloads (SetIsProcessing true
                              :: map (downloadPage f pdf) l ++ t, r) = _)
    end.
    cbn. now rewrite app_nil_r.
  - match goal with
    | |- failed (_ :: _ ++ ?t, ?r) = _ =>
        rewrite (failed_made f pdf l [SetIsProcessing true] t r
                 : failed (SetIsProcessing true
                           :: map (downloadPage f pdf) l ++ t, r) = _)
    end.
    reflexivity.
Qed.

(** Without exactly one file, or with one that does not load, a split
    hands over nothing. *)
Lemma splitPDF_refused (st : State Page) :
  (forall f, files st <> [f]) ->
  downloads (splitPDF st) = [] /\ failed (splitPDF st) = true.
Proof.
  intros H. unfold splitPDF.
  destruct (files st) as [|f [|g fs]]; [split; reflexivity | |
                                        split; reflexivity].
  exfalso. now apply (H f).
Qed.

Lemma splitPDF_unloadable (st : State Page) (f : UploadedFile Page) :
  files st = [f] -> f_pdf (file f) = None ->
  downloads (splitPDF st) = [] /\ failed (splitPDF st) = true.
Proof.
  intros Hf Hp. unfold splitPDF. rewrite Hf.
  destruct (trim (splitRange st)); [split; reflexivity|].
  unfold splitBody, load. rewrite Hp. split; reflexivity.
Qed.

Lemma splitPDF_blank (st : State Page) (f : UploadedFile Page) :
  files st = [f] -> trim (splitRange st) = [] ->
  downloads (splitPDF st) = [] /\ failed (splitPDF st) = true.
Proof.
  intros Hf Ht. unfold splitPDF. rewrite Hf, Ht. split; reflexivity.
Qed.

End Outcomes.

(** C3.  When the range resolves to no page of the loaded document,
    [splitPDF] fails and hands the browser nothing: a blank range is refused
    up front, any other makes the body throw [Error('Invalid page range')],
    which the handler reports as "Split failed". *)
Theorem split_fails_on_empty_selection {Page : Type} {lib : PdfLib Page} :
  forall (st : PDFManipulator.State Page) (f : Index.UploadedFile Page)
         (pdf : list Page),
    PDFManipulator.files st = [f] ->
    Index.f_pdf (Index.file f) = Some pdf ->
    parsePageRange (PDFManipulator.splitRange st) (Z.of_nat (length pdf))
    = [] ->
    Effects.downloads (PDFManipulator.splitPDF st) = []
    /\ Effects.failed (PDFManipulator.splitPDF st) = true
    /\ (trim (PDFManipulator.splitRange st) <> [] ->
        PDFManipulator.splitBody st f = ([], inr (js "Invalid page range"))
        /\ PDFManipulator.splitPDF st
           = (PDFManipulator.splitFailed [], inl tt)).
Proof.
  intros st f pdf Hf Hp He.
  assert (Hrun : trim (PDFManipulator.splitRange st) <> [] ->
                 PDFManipulator.splitPDF st
                 = (PDFManipulator.splitFailed [], inl tt)).
  { intros Ht. rewrite (splitPDF_run st f pdf Hf Hp Ht). now rewrite He. }
  destruct (trim (PDFManipulator.splitRange st)) as [|c r] eqn:Et.
  - destruct (splitPDF_blank st f Hf Et) as [Hd Hfail].
    split; [exact Hd|]. split; [exact Hfail|]. intros H. now contradiction H.
  - rewrite Hrun by discriminate.
    split; [reflexivity|]. split; [reflexivity|]. intros _.
    split; [|reflexivity].
    unfold PDFManipulator.splitBody, PDFManipulator.load.
    rewrite Hp, bind_ret. cbv zeta. rewrite He. reflexivity.
Qed.

Lemma split_fails_on_empty_selection_witness :
  parsePageRange (js "10") 4 = []
  /\ Effects.downloads
       (PDFManipulator.splitPDF (lib := Samples.savesAll)
          (Samples.splitting Samples.fileDoc "10" "range")) = []
  /\ Effects.failed
       (PDFManipulator.splitPDF (lib := Samples.savesAll)
          (Samples.splitting Samples.fileDoc "10" "range")) = true.
Proof.
  split; [reflexivity|].
  pose proof (split_fails_on_empty_selection (lib := Samples.savesAll)
                (Samples.splitting Samples.fileDoc "10" "range")
                Samples.fileDoc [10; 20; 30; 40]%nat
                eq_refl eq_refl eq_refl) as H.
  split; [exact (proj1 H) | exact (proj1 (proj2 H))].
Defined.

(** C6.  Splitting one loaded document to individual pages, when the
    range selects some page and every page's document saves, hands the
    browser one file per selected page, each holding exactly that page of
    the source, in ascending page order. *)
Theorem split_to_individual_pages {Page : Type} {lib : PdfLib Page} :
  forall (st : PDFManipulator.State Page) (f : Index.UploadedFile Page)
         (pdf : list Page),
    PDFManipulator.files st = [f] ->
    Index.f_pdf (Index.file f) = Some pdf ->
    PDFManipulator.strEq (PDFManipulator.splitMode st) (js "range") = false ->
    let pages :=
      parsePageRange (PDFManipulator.splitRange st) (Z.of_nat (length pdf)) in
    pages <> [] ->
    PDFManipulator.allSave pdf pages = true ->
    Effects.downloads (PDFManipulator.splitPDF st)
    = map (PDFManipulator.pageDownload f pdf) pages
    /\ Forall (fun p => exists pg,
                   PDFManipulator.pageAt pdf (p - 1) = Some pg
                   /\ PDFManipulator.singlePage pdf p = [pg]) pages
    /\ StronglySorted Z.lt pages
    /\ Effects.failed (PDFManipulator.splitPDF st) = false.
Proof.
  intros st f pdf Hf Hp Hm pages. subst pages. intros Hne Hs.
  assert (Ht : trim (PDFManipulator.splitRange st) <> []).
  { intros Ht. apply Hne. now apply parsePageRange_blank. }
  pose proof (splitPDF_run st f pdf Hf Hp Ht) as Hrun.
  cbv zeta in Hrun.
  pose proof (parsePageRange_strict (PDFManipulator.splitRange st)
                (Z.of_nat (length pdf))) as Hsorted.
  assert (Hb : forall x,
             In x (parsePageRange (PDFManipulator.splitRange st)
                     (Z.of_nat (length pdf))) ->
             1 <= x <= Z.of_nat (length pdf))
    by (intros x; apply parsePageRange_bounds).
  destruct (parsePageRange (PDFManipulator.splitRange st)
              (Z.of_nat (length pdf))) as [|p ps]; [contradiction|].
  rewrite Hm, Hs, (savedPrefix_all _ _ Hs) in Hrun. rewrite Hrun.
  destruct (splitDone_outcome st f pdf (p :: ps) (p :: ps)) as [Hd Hfail].
  split; [exact Hd|]. split; [|split; [exact Hsorted | exact Hfail]].
  apply Forall_forall. intros x Hx. now apply singlePage_in_bounds, Hb.
Qed.

Lemma split_to_individual_pages_witness :
  parsePageRange (js "2,4") 4 = [2; 4]
  /\ Effects.downloads
       (PDFManipulator.splitPDF (lib := Samples.savesAll)
          (Samples.splitting Samples.fileDoc "2,4" "individual"))
     = [(js "doc_page_2.pdf", [20%nat]); (js "doc_page_4.pdf", [40%nat])].
Proof.
  split; [reflexivity|].
  refine (proj1 (split_to_individual_pages (lib := Samples.savesAll)
                   (Samples.splitting Samples.fileDoc "2,4" "individual")
                   Samples.fileDoc [10; 20; 30; 40]%nat
                   eq_refl eq_refl eq_refl _ eq_refl)).
  vm_compute. discriminate.
Defined.

Section Failures.
Import Effects Index PDFManipulator.
Context {Page : Type} {lib : PdfLib Page}.

Lemma mergePDFs_failed_nothing (st : State Page) :
  failed (mergePDFs st) = true -> downloads (mergePDFs st) = [].
Proof.
  destruct (Nat.ltb_spec (length (files st)) 2) as [L|L].
  - intros _. unfold mergePDFs.
    destruct (Nat.ltb_spec (length (files st)) 2); [reflexivity | lia].
  - rewrite mergePDFs_cases by assumption.
    destruct (mergeLoop (files st) (mergeOrder st)) as [evs [merged|msg]];
      [|reflexivity].
    destruct (canSave merged); [discriminate | reflexivity].
Qed.

Lemma compressPDF_nothing (st : State Page) :
  downloads (compressPDF st) = [].
Proof. unfold compressPDF. destruct (files st); reflexivity. Qed.

Lemma splitPDF_range_failed_nothing (st : State Page) :
  strEq (splitMode st) (js "range") = true ->
  failed (splitPDF st) = true -> downloads (splitPDF st) = [].
Proof.
  intros Hm.
  destruct (files st) as [|f [|g fs]] eqn:Hf.
  - intros _. apply splitPDF_refused. rewrite Hf. discriminate.
  - destruct (f_pdf (file f)) as [pdf|] eqn:Hp.
    + destruct (trim (splitRange st)) as [|c r] eqn:Et.
      * intros _. now apply (splitPDF_blank st f).
      * rewrite (splitPDF_run st f pdf Hf Hp) by (rewrite Et; discriminate).
        cbv zeta. rewrite Hm.
        destruct (parsePageRange _ _) as [|p ps]; [reflexivity|].
        destruct (canSave _); [discriminate | reflexivity].
    + intros _. now apply (splitPDF_unloadable st f).
  - intros _. apply splitPDF_refused. rewrite Hf. discriminate.
Qed.

(** In the other mode the files of the pages before the failing one have
    been handed over when the failure is reported. *)
Lemma splitPDF_individual_outcome (st : State Page)
    (f : UploadedFile Page) (pdf : list Page) :
  strEq (splitMode st) (js "range") = false ->
  files st = [f] -> f_pdf (file f) = Some pdf ->
  let pages := parsePageRange (splitRange st) (Z.of_nat (length pdf)) in
  downloads (splitPDF st)
  = map (pageDownload f pdf) (savedPrefix pdf pages)
  /\ (failed (splitPDF st) = true
      <-> pages = [] \/ allSave pdf pages = false).
Proof.
  intros Hm Hf Hp pages.
  destruct (trim (splitRange st)) as [|c r] eqn:Et.
  - assert (E : pages = []) by (now apply parsePageRange_blank).
    destruct (splitPDF_blank st f Hf Et) as [Hd Hfail].
    rewrite Hd, Hfail, E. split; [reflexivity | tauto].
  - rewrite (splitPDF_run st f pdf Hf Hp) by (rewrite Et; discriminate).
    cbv zeta. fold pages. rewrite Hm.
    destruct pages as [|p ps]; [split; [reflexivity | tauto]|].
    destruct (allSave pdf (p :: ps)) eqn:Hs.
    + destruct (splitDone_outcome st f pdf (p :: ps)
                  (savedPrefix pdf (p :: ps))) as [Hd Hfail].
      rewrite Hd, Hfail. split; [reflexivity|].
      split; [discriminate | intros [H|H]; discriminate H].
    + destruct (splitFailed_outcome f pdf (savedPrefix pdf (p :: ps)))
        as [Hd Hfail].
      rewrite Hd, Hfail. split; [reflexivity | tauto].
Qed.

End Failures.

(** C7, as the code has it.  A merge, a compression and a split into one
    document hand the browser nothing when they fail.  A split to individual
    pages downloads each page's document inside its loop: the documents of
    the pages before the first one that does not save have been handed over
    when the failure is reported, and they stay.  (The source documents are
    values the handlers only read.) *)
Theorem failure_leaves_what_was_downloaded {Page : Type} {lib : PdfLib Page} :
  forall st : PDFManipulator.State Page,
    (Effects.failed (PDFManipulator.mergePDFs st) = true ->
     Effects.downloads (PDFManipulator.mergePDFs st) = [])
    /\ Effects.downloads (PDFManipulator.compressPDF st) = []
    /\ (PDFManipulator.strEq (PDFManipulator.splitMode st) (js "range") = true ->
        Effects.failed (PDFManipulator.splitPDF st) = true ->
        Effects.downloads (PDFManipulator.splitPDF st) = [])
    /\ (PDFManipulator.strEq (PDFManipulator.splitMode st) (js "range")
        = false ->
        forall (f : Index.UploadedFile Page) (pdf : list Page),
          PDFManipulator.files st = [f] ->
          Index.f_pdf (Index.file f) = Some pdf ->
          let pages :=
            parsePageRange (PDFManipulator.splitRange st)
              (Z.of_nat (length pdf)) in
          Effects.downloads (PDFManipulator.splitPDF st)
          = map (PDFManipulator.pageDownload f pdf)
              (PDFManipulator.savedPrefix pdf pages)
          /\ (Effects.failed (PDFManipulator.splitPDF st) = true
              <-> pages = [] \/ PDFManipulator.allSave pdf pages = false)
          /\ exists rest,
               pages = PDFManipulator.savedPrefix pdf pages ++ rest
               /\ (PDFManipulator.allSave pdf pages = false -> rest <> [])).
Proof.
  intros st. split; [|split; [|split]].
  - apply mergePDFs_failed_nothing.
  - apply compressPDF_nothing.
  - apply splitPDF_range_failed_nothing.
  - intros Hm f pdf Hf Hp pages.
    destruct (splitPDF_individual_outcome st f pdf Hm Hf Hp) as [Hd Hfail].
    split; [exact Hd|]. split; [exact Hfail|].
    apply savedPrefix_prefix.
Qed.

Lemma failure_leaves_what_was_downloaded_witness :
  Effects.downloads
    (PDFManipulator.splitPDF (lib := Samples.chokesOn20)
       (Samples.splitting Samples.fileDoc "2" "range")) = []
  /\ Effects.downloads
       (PDFManipulator.splitPDF (lib := Samples.chokesOn20)
          (Samples.splitting Samples.fileDoc "1-3" "individual"))
     = map (PDFManipulator.pageDownload Samples.fileDoc [10; 20; 30; 40]%nat)
         [1].
Proof.
  split.
  - apply (proj1 (proj2 (proj2
             (failure_leaves_what_was_downloaded (lib := Samples.chokesOn20)
                (Samples.splitting Samples.fileDoc "2" "range"))))).
    + reflexivity.
    + reflexivity.
  - apply (proj2 (proj2 (proj2
             (failure_leaves_what_was_downloaded (lib := Samples.chokesOn20)
                (Samples.splitting Samples.fileDoc "1-3" "individual"))))
             eq_refl Samples.fileDoc [10; 20; 30; 40]%nat eq_refl eq_refl).
Defined.

(** C7 as the specification words it fails: splitting pages 1 to 3 into
    individual documents, with a library that cannot save the second, is
    reported as failed after the first page's file has been downloaded. *)
Lemma split_individual_leaves_partial_output :
  let run :=
    PDFManipulator.splitPDF (lib := Samples.chokesOn20)
      (Samples.splitting Samples.fileDoc "1-3" "individual") in
  Effects.failed run = true
  /\ Effects.downloads run = [(js "doc_page_1.pdf", [10%nat])]
  /\ ~ (Effects.failed run = true -> Effects.downloads run = []).
Proof.
  split; [reflexivity|]. split; [reflexivity|].
  intros H. specialize (H eq_refl). discriminate H.
Qed.

(** ** The rotation buttons *)

Section Rotation.
Import ImageConverter.

(** From a normalized angle the clockwise button gives a normalized one. *)
Lemma rotateRight_normalized (r : Z) :
  In r [0; 90; 180; 270] -> In (rotateRight r) [0; 90; 180; 270].
Proof.
  intros H. repeat (destruct H as [<-|H]; [cbv; tauto|]). destruct H.
Qed.

Lemma onClick_range (r : Z) (c : click) :
  In r [-270; -180; -90; 0; 90; 180; 270] ->
  In (onClick r c) [-270; -180; -90; 0; 90; 180; 270].
Proof.
  intros H.
  repeat (destruct H as [<-|H]; [destruct c; cbv; tauto|]). destruct H.
Qed.

(** Whatever is clicked, the angle is a multiple of 90 strictly between
    -360 and 360. *)
Lemma rotationAfter_range (cs : list click) :
  In (rotationAfter cs) [-270; -180; -90; 0; 90; 180; 270].
Proof.
  unfold rotationAfter.
  assert (G : forall r, In r [-270; -180; -90; 0; 90; 180; 270] ->
              In (fold_left onClick cs r)
                 [-270; -180; -90; 0; 90; 180; 270]).
  { induction cs as [|c cs IH]; intros r Hr; [exact Hr|].
    cbn [fold_left]. apply IH. now apply onClick_range. }
  apply G. cbv; tauto.
Qed.

End Rotation.

(** C8.  From 0, one click on the counter-clockwise button stores
    [(0 - 90) % 360], which is -90 and not one of 0, 90, 180, 270; the
    clockwise button alone does stay among them. *)
Theorem rotateLeft_leaves_normalized_angles :
  ImageConverter.rotationAfter [ImageConverter.Left] = -90
  /\ ~ In (ImageConverter.rotationAfter [ImageConverter.Left])
          [0; 90; 180; 270]
  /\ forall n : nat,
       In (ImageConverter.rotationAfter (repeat ImageConverter.Right n))
          [0; 90; 180; 270].
Proof.
  split; [reflexivity|]. split.
  - cbv. intros [H|[H|[H|[H|[]]]]]; discriminate H.
  - intros n. unfold ImageConverter.rotationAfter.
    assert (G : forall r, In r [0; 90; 180; 270] ->
                In (fold_left ImageConverter.onClick
                      (repeat ImageConverter.Right n) r) [0; 90; 180; 270]).
    { induction n as [|n IH]; intros r Hr; [exact Hr|].
      cbn [repeat fold_left ImageConverter.onClick]. apply IH.
      now apply rotateRight_normalized. }
    apply G. cbv; tauto.
Qed.

(** ** The upload filter *)

Section Uploading.
Import Index FileUpload.
Context {Page : Type}.

Lemma emitted_app_toast (evs : list (event Page)) (t d : jsstring)
    (b : bool) :
  noUploadCall evs -> noUploadCall (evs ++ [Toast t d b]).
Proof.
  unfold noUploadCall, emitted. rewrite flat_map_app.
  destruct (flat_map _ evs); [reflexivity | discriminate].
Qed.

Lemma accepted_iff (f : File Page) :
  accepted f = true
  <-> f_size f <= 50 * 1024 * 1024
      /\ (startsWith (js "image/") (f_type f) = true
          \/ f_type f = js "application/pdf").
Proof.
  unfold accepted, isImage, isPDF, maxSize.
  rewrite andb_true_iff, orb_true_iff, negb_true_iff, strEq_eq.
  destruct (Z.gtb_spec (f_size f) (50 * 1024 * 1024)); split;
    intros [H1 H2]; try discriminate; try lia; split; auto; lia.
Qed.

Lemma visit_accepted (random : nat -> jsstring)
    (fs : list (UploadedFile Page)) (evs : list (event Page))
    (f : File Page) :
  accepted f = true ->
  exists u, builtFrom u /\ file u = f
            /\ visit random (fs, evs) f = (fs ++ [u], evs).
Proof.
  unfold accepted, visit. intros H.
  apply andb_true_iff in H. destruct H as [Hs Ht].
  apply negb_true_iff in Hs. rewrite Hs.
  replace (negb (isImage f) && negb (isPDF f)) with false
    by (destruct (isImage f), (isPDF f); try reflexivity; discriminate).
  eexists. split; [|split; [|reflexivity]]; [|reflexivity].
  repeat split.
Qed.

Lemma visit_rejected (random : nat -> jsstring)
    (fs : list (UploadedFile Page)) (evs : list (event Page))
    (f : File Page) :
  accepted f = false ->
  exists t d, visit random (fs, evs) f = (fs, evs ++ [Toast t d true]).
Proof.
  unfold accepted, visit. intros H.
  destruct (f_size f >? maxSize); [do 2 eexists; reflexivity|].
  destruct (isImage f), (isPDF f); try discriminate H.
  do 2 eexists; reflexivity.
Qed.

(** The loop keeps the accepted files, in order, and goes on past the
    others. *)
Lemma visit_fold (random : nat -> jsstring) (l : list (File Page)) :
  forall (fs : list (UploadedFile Page)) (evs : list (event Page)),
    Forall builtFrom fs -> noUploadCall evs ->
    let '(fs', evs') := fold_left (visit random) l (fs, evs) in
    map file fs' = map file fs ++ filter accepted l
    /\ Forall builtFrom fs' /\ noUploadCall evs'.
Proof.
  induction l as [|f l IH]; intros fs evs Hfs Hevs.
  - cbn [fold_left filter]. rewrite app_nil_r. auto.
  - cbn [fold_left filter]. destruct (accepted f) eqn:Ha.
    + destruct (visit_accepted random fs evs f Ha) as (u & Hu & Hf & ->).
      specialize (IH (fs ++ [u]) evs).
      destruct (fold_left _ l _) as [fs' evs'].
      rewrite map_app, <- app_assoc in IH. cbn [map app] in IH.
      rewrite Hf in IH. apply IH; [|assumption].
      apply Forall_app. split; [assumption | now constructor].
    + destruct (visit_rejected random fs evs f Ha) as (t & d & ->).
      apply IH; [assumption | now apply emitted_app_toast].
Qed.

End Uploading.

(** C10.  [processFiles] keeps a file exactly when its size is at most
    50*1024*1024 and its type starts with [image/] or is [application/pdf].
    What it passes to [onFilesUploaded] is the kept files in their order,
    each with progress 100 and status [completed] and the file's own name,
    size and type; the other files are left out and do not stop the loop.
    When no file is kept the call is not made. *)
Theorem processFiles_keeps_accepted {Page : Type} :
  forall (random : nat -> jsstring) (fileList : list (Index.File Page)),
    (forall f : Index.File Page,
        FileUpload.accepted f = true
        <-> Index.f_size f <= 50 * 1024 * 1024
            /\ (startsWith (js "image/") (Index.f_type f) = true
                \/ Index.f_type f = js "application/pdf"))
    /\ match FileUpload.emitted (FileUpload.processFiles random fileList) with
       | Some fs =>
           map Index.file fs = filter FileUpload.accepted fileList
           /\ fs <> []
           /\ Forall (fun u =>
                        Index.progress u = 100
                        /\ Index.uf_status u = Index.completed
                        /\ Index.name u = Index.f_name (Index.file u)
                        /\ Index.size u = Index.f_size (Index.file u)
                        /\ Index.type u = Index.f_type (Index.file u)) fs
       | None => filter FileUpload.accepted fileList = []
       end.
Proof.
  intros random fileList. split; [exact accepted_iff|].
  unfold FileUpload.processFiles.
  pose proof (visit_fold random fileList []
                [FileUpload.SetIsProcessing true]
                (Forall_nil _) eq_refl) as H.
  destruct (fold_left _ fileList _) as [fs evs].
  destruct H as (Hm & Hb & He).
  unfold FileUpload.noUploadCall, FileUpload.emitted in *.
  rewrite flat_map_app.
  destruct (flat_map _ evs) as [|x xs] eqn:Ee; [|discriminate He].
  change (map Index.file [] ++ filter FileUpload.accepted fileList)
    with (filter FileUpload.accepted fileList) in Hm.
  cbn [app]. destruct fs as [|u fs].
  - cbn. now rewrite <- Hm.
  - cbn. split; [exact Hm|]. split; [discriminate | exact Hb].
Qed.

Lemma processFiles_keeps_accepted_witness :
  FileUpload.accepted Samples.report = true
  /\ match FileUpload.emitted
             (FileUpload.processFiles (fun k => numberToString (Z.of_nat k))
                [Samples.picture; Samples.hugePdf; Samples.notes;
                 Samples.report]) with
     | Some fs => map Index.file fs = [Samples.picture; Samples.report]
     | None => False
     end.
Proof.
  pose proof (processFiles_keeps_accepted
                (fun k => numberToString (Z.of_nat k))
                [Samples.picture; Samples.hugePdf; Samples.notes;
                 Samples.report]) as [Hacc H].
  split.
  - apply Hacc. split; [vm_compute; discriminate | right; reflexivity].
  - vm_compute in H. vm_compute. exact (proj1 H).
Defined.

(* ================================================================== *)
(** * Further properties of the code *)
(* ================================================================== *)

(** ** Reordering the merge list *)

Section MovePDF.
Import Reordering.

Lemma setAt_middle {A} (pre suf : list A) (a v : A) :
  setAt (pre ++ a :: suf) (length pre) v = pre ++ v :: suf.
Proof. induction pre as [|x pre IH]; simpl; [reflexivity | now rewrite IH]. Qed.

Lemma nth_error_middle {A} (pre suf : list A) (a : A) :
  nth_error (pre ++ a :: suf) (length pre) = Some a.
Proof. induction pre as [|x pre IH]; simpl; [reflexivity | exact IH]. Qed.

Lemma neighbours {A} (l : list A) (i : nat) :
  (i + 1 < length l)%nat ->
  exists pre a b suf, l = pre ++ a :: b :: suf /\ length pre = i.
Proof.
  revert i; induction l as [|x l IH]; intros i H; simpl in H; [lia|].
  destruct i as [|i].
  - destruct l as [|y l]; simpl in H; [lia|].
    exists [], x, y, l. split; reflexivity.
  - destruct (IH i ltac:(lia)) as (pre & a & b & suf & -> & <-).
    exists (x :: pre), a, b, suf. split; reflexivity.
Qed.

Lemma nth_error_second {A} (pre suf : list A) (a b : A) :
  nth_error (pre ++ a :: b :: suf) (S (length pre)) = Some b.
Proof. induction pre as [|x pre IH]; simpl; [reflexivity | exact IH]. Qed.

Lemma setAt_swap_down {A} (pre suf : list A) (a b : A) :
  setAt (setAt (pre ++ a :: b :: suf) (length pre) b) (S (length pre)) a
  = pre ++ b :: a :: suf.
Proof. induction pre as [|x pre IH]; simpl; [reflexivity | now rewrite IH]. Qed.

Lemma setAt_swap_up {A} (pre suf : list A) (a b : A) :
  setAt (setAt (pre ++ a :: b :: suf) (S (length pre)) a) (length pre) b
  = pre ++ b :: a :: suf.
Proof. induction pre as [|x pre IH]; simpl; [reflexivity | now rewrite IH]. Qed.

(** Moving the first of two neighbours down, or the second up, swaps
    them. *)
Lemma movePDF_down_swap (pre suf : list jsstring) (a b : jsstring) :
  movePDF (pre ++ a :: b :: suf) (length pre) down
  = Some (pre ++ b :: a :: suf).
Proof.
  unfold movePDF. cbv zeta.
  assert (Hin : (Z.of_nat (length pre) + 1 >=? 0)
                && (Z.of_nat (length pre) + 1
                    <? Z.of_nat (length (pre ++ a :: b :: suf))) = true).
  { rewrite length_app. cbn [length].
    apply andb_true_iff. split; [apply Z.geb_le | apply Z.ltb_lt]; lia. }
  rewrite Hin.
  replace (Z.to_nat (Z.of_nat (length pre) + 1)) with (S (length pre))
    by lia.
  now rewrite nth_error_middle, nth_error_second, setAt_swap_down.
Qed.

Lemma movePDF_up_swap (pre suf : list jsstring) (a b : jsstring) :
  movePDF (pre ++ a :: b :: suf) (S (length pre)) up
  = Some (pre ++ b :: a :: suf).
Proof.
  unfold movePDF. cbv zeta.
  assert (Hin : (Z.of_nat (S (length pre)) - 1 >=? 0)
                && (Z.of_nat (S (length pre)) - 1
                    <? Z.of_nat (length (pre ++ a :: b :: suf))) = true).
  { rewrite length_app. cbn [length].
    apply andb_true_iff. split; [apply Z.geb_le | apply Z.ltb_lt]; lia. }
  rewrite Hin.
  replace (Z.to_nat (Z.of_nat (S (length pre)) - 1)) with (length pre) by lia.
  now rewrite nth_error_middle, nth_error_second, setAt_swap_up.
Qed.

Lemma movePDF_first_up (order : list jsstring) :
  movePDF order 0 up = Some order.
Proof. reflexivity. Qed.

Lemma movePDF_last_down (order : list jsstring) (i : nat) :
  (length order <= i + 1)%nat -> movePDF order i down = Some order.
Proof.
  intros H. unfold movePDF. cbv zeta.
  destruct (Z.ltb_spec (Z.of_nat i + 1) (Z.of_nat (length order))); [lia|].
  now rewrite andb_false_r.
Qed.

(** Every way a call can go. *)
Lemma movePDF_cases (order : list jsstring) (i : nat) (d : direction) :
  movePDF order i d = Some order
  \/ (exists pre a b suf,
        order = pre ++ a :: b :: suf
        /\ movePDF order i d = Some (pre ++ b :: a :: suf)
        /\ (d = down /\ i = length pre \/ d = up /\ i = S (length pre)))
  \/ (d = up /\ i = length order /\ movePDF order i d = None).
Proof.
  destruct d.
  - destruct i as [|i]; [left; reflexivity|].
    destruct (Nat.lt_ge_cases (i + 1) (length order)) as [L|L].
    + right; left.
      destruct (neighbours order i L) as (pre & a & b & suf & -> & <-).
      exists pre, a, b, suf. split; [reflexivity|].
      split; [apply movePDF_up_swap | right; split; reflexivity].
    + destruct (Nat.eq_dec (S i) (length order)) as [E|N].
      * right; right. split; [reflexivity|]. split; [exact E|].
        unfold movePDF. cbv zeta.
        assert (Hin : (Z.of_nat (S i) - 1 >=? 0)
                      && (Z.of_nat (S i) - 1 <? Z.of_nat (length order))
                      = true).
        { apply andb_true_iff.
          split; [apply Z.geb_le | apply Z.ltb_lt]; lia. }
        rewrite Hin.
        replace (nth_error order (S i)) with (@None jsstring);
          [reflexivity|].
        symmetry. apply nth_error_None. lia.
      * left. unfold movePDF. cbv zeta.
        destruct (Z.ltb_spec (Z.of_nat (S i) - 1) (Z.of_nat (length order)));
          [lia|].
        now rewrite andb_false_r.
  - destruct (Nat.lt_ge_cases (i + 1) (length order)) as [L|L].
    + right; left.
      destruct (neighbours order i L) as (pre & a & b & suf & -> & <-).
      exists pre, a, b, suf. split; [reflexivity|].
      split; [apply movePDF_down_swap | left; split; reflexivity].
    + left. apply movePDF_last_down. lia.
Qed.

Lemma swap_Permutation {A} (pre suf : list A) (a b : A) :
  Permutation (pre ++ a :: b :: suf) (pre ++ b :: a :: suf).
Proof. apply Permutation_app_head, perm_swap. Qed.

Lemma movePDF_Some_Permutation (order order' : list jsstring) (i : nat)
    (d : direction) :
  movePDF order i d = Some order' -> Permutation order order'.
Proof.
  intros H.
  destruct (movePDF_cases order i d)
    as [E|[(pre & a & b & suf & -> & E & _)|(_ & _ & E)]];
    rewrite E in H; [| |discriminate H]; injection H as <-.
  - reflexivity.
  - apply swap_Permutation.
Qed.

End MovePDF.

(** X1.  On a position of the list, [movePDF] always gives a new order, and
    that order holds the same file ids as before, each as often as before. *)
Theorem movePDF_keeps_the_ids :
  forall (order : list jsstring) (i : nat) (d : Reordering.direction),
    (i < length order)%nat ->
    exists order',
      Reordering.movePDF order i d = Some order'
      /\ Permutation order order'
      /\ length order' = length order.
Proof.
  intros order i d Hi.
  destruct (movePDF_cases order i d)
    as [E|[(pre & a & b & suf & E0 & E & _)|(_ & Hlen & _)]]; [| |lia].
  - exists order. repeat split; [exact E | reflexivity].
  - exists (pre ++ b :: a :: suf). subst order.
    split; [exact E|]. split; [apply swap_Permutation|].
    rewrite !length_app. reflexivity.
Qed.

Lemma movePDF_keeps_the_ids_witness :
  exists order',
    Reordering.movePDF [js "a"; js "b"; js "c"] 1 Reordering.down
    = Some order'
    /\ Permutation [js "a"; js "b"; js "c"] order'
    /\ length order' = 3%nat.
Proof.
  apply (movePDF_keeps_the_ids [js "a"; js "b"; js "c"] 1 Reordering.down).
  simpl. lia.
Defined.

(** X2.  At the ends the guard holds the list still: moving the first entry
    up, or the last entry down, leaves the order as it is. *)
Theorem movePDF_stops_at_the_ends :
  forall order : list jsstring,
    Reordering.movePDF order 0 Reordering.up = Some order
    /\ Reordering.movePDF order (length order - 1) Reordering.down
       = Some order.
Proof.
  intros order. split; [reflexivity|].
  apply movePDF_last_down. lia.
Qed.

(** X3.  A move is undone by the opposite move from where the entry went:
    up from [i] then down from [i - 1], and down from [i] then up from
    [i + 1], give back the order. *)
Theorem movePDF_there_and_back :
  forall (order : list jsstring) (i : nat),
    ((1 <= i < length order)%nat ->
     exists order',
       Reordering.movePDF order i Reordering.up = Some order'
       /\ Reordering.movePDF order' (i - 1) Reordering.down = Some order)
    /\ ((i + 1 < length order)%nat ->
        exists order',
          Reordering.movePDF order i Reordering.down = Some order'
          /\ Reordering.movePDF order' (i + 1) Reordering.up = Some order).
Proof.
  intros order i. split; intros H.
  - destruct (neighbours order (i - 1) ltac:(lia))
      as (pre & a & b & suf & -> & Hp).
    exists (pre ++ b :: a :: suf). split.
    + replace i with (S (length pre)) by lia. apply movePDF_up_swap.
    + rewrite <- Hp. apply movePDF_down_swap.
  - destruct (neighbours order i H) as (pre & a & b & suf & -> & Hp).
    exists (pre ++ b :: a :: suf). split.
    + rewrite <- Hp. apply movePDF_down_swap.
    + replace (i + 1)%nat with (S (length pre)) by lia.
      apply movePDF_up_swap.
Qed.

Lemma movePDF_there_and_back_witness :
  exists order',
    Reordering.movePDF [js "a"; js "b"; js "c"] 2 Reordering.up = Some order'
    /\ Reordering.movePDF order' 1 Reordering.down
       = Some [js "a"; js "b"; js "c"].
Proof.
  apply (proj1 (movePDF_there_and_back [js "a"; js "b"; js "c"] 2)).
  simpl. lia.
Defined.

Section ReorderThenMerge.
Import Effects Index PDFManipulator.
Context {Page : Type} {lib : PdfLib Page}.

Lemma forallb_Permutation {A} (f : A -> bool) (l l' : list A) :
  Permutation l l' -> forallb f l = forallb f l'.
Proof.
  induction 1 as [|x l l' Hp IH|x y l|l l' l'' H1 IH1 H2 IH2]; simpl.
  - reflexivity.
  - now rewrite IH.
  - destruct (f x), (f y); reflexivity.
  - now rewrite IH1.
Qed.

(** A merge that is not reported as failed made exactly one file. *)
Lemma mergePDFs_succeeded (st : State Page) :
  (2 <= length (files st))%nat ->
  failed (mergePDFs st) = false ->
  forallb (loadable (files st)) (mergeOrder st) = true
  /\ downloads (mergePDFs st)
     = [(js "merged_document.pdf",
         savedPages (flat_map (pagesOfId (files st)) (mergeOrder st)))].
Proof.
  intros H2. rewrite mergePDFs_cases by assumption.
  destruct (forallb (loadable (files st)) (mergeOrder st)) eqn:Hl.
  - rewrite mergeLoop_ok by assumption. unfold ret.
    destruct (canSave _); [|discriminate]. intros _. split; reflexivity.
  - destruct (mergeLoop_throws _ _ Hl) as (msg & ->). discriminate.
Qed.

Lemma savedPages_Permutation (l l' : list Page) :
  Permutation l l' -> Permutation (savedPages l) (savedPages l').
Proof.
  intros H. destruct l as [|x l].
  - apply Permutation_nil in H. subst l'. reflexivity.
  - destruct l' as [|y l']; [|exact H].
    apply Permutation_sym, Permutation_nil in H. discriminate H.
Qed.

End ReorderThenMerge.

(** X4.  Reordering loses no page and adds none: when a merge goes through,
    the merge after a [movePDF] (if its document saves) also goes through,
    and its one file holds the same pages, each as often, in the new
    order of the documents (the one blank page of saving when no document
    has a page). *)
Theorem reordering_keeps_the_merged_pages {Page : Type} {lib : PdfLib Page} :
  forall (st st' : PDFManipulator.State Page) (i : nat)
         (d : Reordering.direction),
    PDFManipulator.files st' = PDFManipulator.files st ->
    Reordering.movePDF (PDFManipulator.mergeOrder st) i d
    = Some (PDFManipulator.mergeOrder st') ->
    (2 <= length (PDFManipulator.files st))%nat ->
    Effects.failed (PDFManipulator.mergePDFs st) = false ->
    canSave (flat_map (PDFManipulator.pagesOfId (PDFManipulator.files st'))
               (PDFManipulator.mergeOrder st')) = true ->
    exists D D',
      Effects.downloads (PDFManipulator.mergePDFs st)
      = [(js "merged_document.pdf", D)]
      /\ Effects.downloads (PDFManipulator.mergePDFs st')
         = [(js "merged_document.pdf", D')]
      /\ D' = PDFManipulator.savedPages
                (flat_map
                   (PDFManipulator.pagesOfId (PDFManipulator.files st'))
                   (PDFManipulator.mergeOrder st'))
      /\ Permutation D D'.
Proof.
  intros st st' i d Hf Hm H2 Hok Hs.
  destruct (mergePDFs_succeeded st H2 Hok) as [Hl Hd].
  pose proof (movePDF_Some_Permutation _ _ _ _ Hm) as Hp.
  exists (PDFManipulator.savedPages
            (flat_map (PDFManipulator.pagesOfId (PDFManipulator.files st))
               (PDFManipulator.mergeOrder st))),
         (PDFManipulator.savedPages
            (flat_map (PDFManipulator.pagesOfId (PDFManipulator.files st'))
               (PDFManipulator.mergeOrder st'))).
  split; [exact Hd|]. split; [|split; [reflexivity|]].
  - rewrite mergePDFs_cases by (rewrite Hf; exact H2).
    rewrite mergeLoop_ok.
    + unfold Effects.ret. rewrite Hs. reflexivity.
    + rewrite Hf, <- (forallb_Permutation _ _ _ Hp). exact Hl.
  - rewrite Hf. now apply savedPages_Permutation, Permutation_flat_map.
Qed.

Lemma reordering_keeps_the_merged_pages_witness :
  exists D D',
    Effects.downloads
      (PDFManipulator.mergePDFs (lib := Samples.savesAll)
         (Samples.merging [Samples.fileA; Samples.fileB]))
    = [(js "merged_document.pdf", D)]
    /\ Effects.downloads
         (PDFManipulator.mergePDFs (lib := Samples.savesAll)
            {| PDFManipulator.files := [Samples.fileA; Samples.fileB];
               PDFManipulator.mergeOrder :=
                 [Index.id Samples.fileB; Index.id Samples.fileA];
               PDFManipulator.splitRange := [];
               PDFManipulator.splitMode := js "range" |})
       = [(js "merged_document.pdf", D')]
    /\ D' = [4; 5; 1; 2; 3]%nat
    /\ Permutation D D'.
Proof.
  apply (reordering_keeps_the_merged_pages (lib := Samples.savesAll)
           (Samples.merging [Samples.fileA; Samples.fileB])
           {| PDFManipulator.files := [Samples.fileA; Samples.fileB];
              PDFManipulator.mergeOrder :=
                [Index.id Samples.fileB; Index.id Samples.fileA];
              PDFManipulator.splitRange := [];
              PDFManipulator.splitMode := js "range" |}
           0 Reordering.down).
  - reflexivity.
  - reflexivity.
  - simpl. lia.
  - reflexivity.
  - reflexivity.
Defined.

(** ** Numbers and names as text *)

Section NumbersAsText.
Import Grammar.

Lemma numberToString_negative (n : Z) :
  n < 0 -> numberToString n = 45%N :: numberToString (- n).
Proof.
  intros H. unfold numberToString.
  destruct (Z.ltb_spec n 0); [|lia].
  destruct (Z.ltb_spec (- n) 0); [lia | reflexivity].
Qed.

Lemma parseInt_minus_numeral (ds : jsstring) :
  isNumeral ds = true -> parseInt (45%N :: ds) = Some (- digitsValue ds).
Proof.
  destruct ds as [|c ds]; [discriminate|].
  unfold isNumeral. intros Hall.
  pose proof Hall as H. cbn [forallb] in H. apply andb_true_iff in H.
  destruct H as [Hc Hds].
  unfold parseInt.
  change (trimStart (45%N :: c :: ds)) with (45%N :: c :: ds).
  cbv iota beta.
  destruct (N.eqb_spec 45 45) as [_|N]; [|now contradiction N].
  assert (Hend :
    match radixDigits 10 (c :: ds) with
    | [] => NaN
    | z :: l => Some (-1 * mathInt 10 (z :: l))
    end = Some (- digitsValue (c :: ds))).
  { rewrite (radixDigits_decimal (c :: ds) Hall).
    unfold digitsValue. cbn [map]. f_equal; lia. }
  destruct ds as [|x r]; [exact Hend|].
  cbn [forallb] in Hds. apply andb_true_iff in Hds. destruct Hds as [Hx _].
  destruct (digit_plain x Hx) as (_ & _ & _ & H1 & H2).
  rewrite (proj2 (N.eqb_neq x 120) H1), (proj2 (N.eqb_neq x 88) H2).
  rewrite andb_false_r. exact Hend.
Qed.

Lemma numberToString_value (n : Z) :
  0 <= n -> digitsValue (numberToString n) = n.
Proof. intros H. now apply numberToString_numeral. Qed.

(** Written out differently, two page numbers differ. *)
Lemma numberToString_inj (p q : Z) :
  0 <= p -> 0 <= q -> numberToString p = numberToString q -> p = q.
Proof.
  intros Hp Hq E.
  rewrite <- (numberToString_value p Hp), <- (numberToString_value q Hq).
  now rewrite E.
Qed.

(** The first piece of a split has no separator, and the string is that
    piece alone or that piece, a separator and more. *)
Lemma split_first (sep : code_unit) (s : jsstring) :
  ~ In sep (nth 0 (split sep s) [])
  /\ (s = nth 0 (split sep s) []
      \/ exists rest, s = nth 0 (split sep s) [] ++ sep :: rest).
Proof.
  induction s as [|c s (Hn & Hs)]; [simpl; intuition|].
  cbn [split]. destruct (N.eqb_spec c sep) as [->|Hc].
  - cbn [nth]. split; [intros []|]. right. exists s. reflexivity.
  - pose proof (split_not_nil sep s) as Hne.
    destruct (split sep s) as [|h t]; [contradiction|].
    cbn [nth] in *. split.
    + intros [E|Hin]; [now apply Hc | now apply Hn].
    + destruct Hs as [->|(rest & ->)]; [now left|].
      right. exists rest. reflexivity.
Qed.

Lemma NoDup_map_on {A B} (f : A -> B) (l : list A) :
  (forall x y, In x l -> In y l -> f x = f y -> x = y) ->
  NoDup l -> NoDup (map f l).
Proof.
  intros Hinj Hnd. induction Hnd as [|x l Hx Hl IH]; [constructor|].
  cbn [map]. constructor.
  - intros Hin. apply in_map_iff in Hin. destruct Hin as (y & E & Hy).
    apply Hx. rewrite (Hinj x y); [assumption | now left | now right
                                   | now symmetry].
  - apply IH. intros a b Ha Hb. apply Hinj; now right.
Qed.

Lemma parseInt_numberToString (n : Z) :
  parseInt (numberToString n) = Some n.
Proof.
  destruct (Z.lt_ge_cases n 0) as [L|L].
  - rewrite numberToString_negative by assumption.
    destruct (numberToString_numeral (- n) ltac:(lia)) as [Hnum Hval].
    rewrite parseInt_minus_numeral by assumption.
    f_equal. lia.
  - destruct (numberToString_numeral n L) as [Hnum Hval].
    now rewrite parseInt_numeral, Hval.
Qed.

End NumbersAsText.

(** X5.  The [Select] controls for the rotation angle and the DPI show
    [state.toString()] and store [parseInt(value)]: for every state that is
    a safe integer, choosing the option shown stores that state again, and
    the options offered are stored as 90, 180, 270 and 72, 150, 300, 600. *)
Theorem parseInt_reads_what_toString_writes :
  (forall n : Z,
      isSafeInteger n ->
      NumberSelect.onValueChange (NumberSelect.shownValue n) = Some n)
  /\ map NumberSelect.onValueChange NumberSelect.angleOptions
     = [Some 90; Some 180; Some 270]
  /\ map NumberSelect.onValueChange NumberSelect.dpiOptions
     = [Some 72; Some 150; Some 300; Some 600].
Proof.
  split; [|split; reflexivity].
  intros n _. apply parseInt_numberToString.
Qed.

Lemma parseInt_reads_what_toString_writes_witness :
  NumberSelect.onValueChange (NumberSelect.shownValue 270) = Some 270.
Proof.
  apply (proj1 parseInt_reads_what_toString_writes 270).
  unfold isSafeInteger, MAX_SAFE_INTEGER. lia.
Defined.

(** X6.  A resize field stores the safe integer whose decimal text is typed
    into it, and 0 when [parseInt] reads no number from the text; whatever
    the model lets it store is a safe integer. *)
Theorem parseDimension_reads_integers :
  (forall n : Z,
      isSafeInteger n ->
      Resize.parseDimension (numberToString n) = Some n)
  /\ (forall value : jsstring,
         parseInt value = NaN -> Resize.parseDimension value = Some 0)
  /\ (forall (value : jsstring) (n : Z),
         Resize.parseDimension value = Some n -> isSafeInteger n).
Proof.
  split; [|split].
  - intros n Hn. unfold Resize.parseDimension.
    rewrite parseInt_numberToString.
    assert (Ha : (Z.abs n <=? MAX_SAFE_INTEGER) = true)
      by (apply Z.leb_le; unfold isSafeInteger in Hn; lia).
    rewrite Ha. cbn [truthy].
    destruct (Z.eqb_spec n 0); [now subst | reflexivity].
  - intros value H. unfold Resize.parseDimension. now rewrite H.
  - intros value n. unfold Resize.parseDimension, isSafeInteger.
    destruct (parseInt value) as [m|].
    + destruct (Z.leb_spec (Z.abs m) MAX_SAFE_INTEGER) as [L|L];
        [|discriminate].
      cbn [truthy]. destruct (Z.eqb_spec m 0); cbn [negb];
        intros E; injection E as <-;
        unfold MAX_SAFE_INTEGER in *; lia.
    + intros E. injection E as <-. unfold MAX_SAFE_INTEGER. lia.
Qed.

(** X7.  The stem of a download's name, [file.name.split('.')[0]], is the
    file name up to its first dot: it holds no dot, and the name is the stem
    itself or the stem, a dot and the rest. *)
Theorem baseName_is_the_name_before_the_first_dot {Page : Type} :
  forall f : Index.UploadedFile Page,
    ~ In 46%N (PDFManipulator.baseName f)
    /\ (Index.name f = PDFManipulator.baseName f
        \/ exists rest,
             Index.name f = PDFManipulator.baseName f ++ js "." ++ rest).
Proof. intros f. apply split_first. Qed.

Section FileNames.
Import Effects Index PDFManipulator.
Context {Page : Type} {lib : PdfLib Page}.

Lemma pageFileName_inj (f : UploadedFile Page) (p q : Z) :
  0 <= p -> 0 <= q -> pageFileName f p = pageFileName f q -> p = q.
Proof.
  unfold pageFileName. intros Hp Hq E.
  apply app_inv_head in E. apply app_inv_head in E.
  apply app_inv_tail in E. now apply numberToString_inj.
Qed.

Lemma downloads_names (f : UploadedFile Page) (pdf : list Page)
    (l : list Z) :
  map fst (map (pageDownload f pdf) l) = map (pageFileName f) l.
Proof. rewrite map_map. reflexivity. Qed.

End FileNames.

(** X8.  The files of one split to individual pages all have different
    names, however far the split gets: no page's file replaces another's. *)
Theorem split_individual_names_differ {Page : Type} {lib : PdfLib Page} :
  forall (st : PDFManipulator.State Page) (f : Index.UploadedFile Page)
         (pdf : list Page),
    PDFManipulator.strEq (PDFManipulator.splitMode st) (js "range") = false ->
    PDFManipulator.files st = [f] ->
    Index.f_pdf (Index.file f) = Some pdf ->
    NoDup (map fst (Effects.downloads (PDFManipulator.splitPDF st))).
Proof.
  intros st f pdf Hm Hf Hp.
  destruct (splitPDF_individual_outcome st f pdf Hm Hf Hp) as [Hd _].
  cbv zeta in Hd. rewrite Hd, downloads_names.
  set (pages := parsePageRange (PDFManipulator.splitRange st)
                  (Z.of_nat (length pdf))).
  destruct (savedPrefix_prefix pdf pages) as (rest & E & _).
  assert (Hnd : NoDup pages)
    by apply StronglySorted_lt_NoDup, parsePageRange_strict.
  assert (Hb : forall x, In x pages -> 1 <= x)
    by (intros x Hx; apply parsePageRange_bounds in Hx; lia).
  rewrite E in Hnd, Hb. apply NoDup_app_remove_r in Hnd.
  apply NoDup_map_on; [|exact Hnd].
  intros x y Hx Hy. apply pageFileName_inj.
  - assert (1 <= x) by (apply Hb, in_or_app; now left). lia.
  - assert (1 <= y) by (apply Hb, in_or_app; now left). lia.
Qed.

Lemma split_individual_names_differ_witness :
  NoDup (map fst
           (Effects.downloads
              (PDFManipulator.splitPDF (lib := Samples.savesAll)
                 (Samples.splitting Samples.fileDoc "1-4" "individual")))).
Proof.
  exact (split_individual_names_differ (lib := Samples.savesAll)
           (Samples.splitting Samples.fileDoc "1-4" "individual")
           Samples.fileDoc [10; 20; 30; 40]%nat eq_refl eq_refl eq_refl).
Defined.

(** ** The processing flag *)

Section ProcessingFlag.
Import Effects Index PDFManipulator Reading.
Context {Page : Type} {lib : PdfLib Page}.

Lemma tryCatchFinally_ends (body : M Page unit)
    (handler : jsstring -> M Page unit) (fin : M Page unit) :
  (forall msg, snd (handler msg) = inl tt) ->
  exists l, fst (tryCatchFinally body handler fin) = l ++ fst fin.
Proof.
  intros Hh. destruct body as [l [[]|msg]]; unfold tryCatchFinally, bind.
  - exists l. now destruct fin.
  - specialize (Hh msg). destruct (handler msg) as [hl r].
    cbn [snd] in Hh. subst r. exists (l ++ hl).
    destruct fin as [fl fr]. cbn [fst]. now rewrite app_assoc.
Qed.

Lemma guarded_run_resets (body : M Page unit)
    (handler : jsstring -> M Page unit) (before : bool) :
  (forall msg, snd (handler msg) = inl tt) ->
  isProcessingAfter before
    (log (bind (emit (SetIsProcessing true))
            (fun _ => tryCatchFinally body handler
                        (emit (SetIsProcessing false)))))
  = false.
Proof.
  intros Hh.
  destruct (tryCatchFinally_ends body handler
              (emit (SetIsProcessing false)) Hh) as (l & E).
  unfold log. rewrite bind_emit. cbn [fst]. rewrite E.
  unfold isProcessingAfter. cbn [fold_left emit fst].
  now rewrite fold_left_app.
Qed.

End ProcessingFlag.

(** X9.  Whatever happens inside, a handler that switched [isProcessing] on
    switches it off before it ends, and one stopped by its guard does not
    touch it: after [mergePDFs], [splitPDF] or [compressPDF] the flag is
    off again. *)
Theorem handlers_leave_processing_off {Page : Type} {lib : PdfLib Page} :
  forall st : PDFManipulator.State Page,
    Reading.isProcessingAfter false
      (Effects.log (PDFManipulator.mergePDFs st)) = false
    /\ Reading.isProcessingAfter false
         (Effects.log (PDFManipulator.splitPDF st)) = false
    /\ Reading.isProcessingAfter false
         (Effects.log (PDFManipulator.compressPDF st)) = false.
Proof.
  intros st. split; [|split].
  - unfold PDFManipulator.mergePDFs.
    destruct (length (PDFManipulator.files st) <? 2)%nat; [reflexivity|].
    apply guarded_run_resets. reflexivity.
  - unfold PDFManipulator.splitPDF.
    destruct (PDFManipulator.files st) as [|f [|g fs]]; try reflexivity.
    destruct (trim (PDFManipulator.splitRange st)); [reflexivity|].
    apply guarded_run_resets. reflexivity.
  - unfold PDFManipulator.compressPDF.
    destruct (PDFManipulator.files st); [reflexivity|].
    apply guarded_run_resets. reflexivity.
Qed.

(** ** The upload handler, file by file *)

Section UploadDetails.
Import Index FileUpload Reading.
Context {Page : Type}.

Lemma visit_rejected_toast (random : nat -> jsstring)
    (fs : list (UploadedFile Page)) (evs : list (event Page))
    (f : File Page) :
  accepted f = false ->
  visit random (fs, evs) f = (fs, evs ++ [rejectionToast f]).
Proof.
  unfold accepted, visit, rejectionToast. intros H.
  destruct (f_size f >? maxSize); [reflexivity|].
  destruct (isImage f), (isPDF f); try discriminate H. reflexivity.
Qed.

Lemma visit_accepted_id (random : nat -> jsstring)
    (fs : list (UploadedFile Page)) (evs : list (event Page))
    (f : File Page) :
  accepted f = true ->
  exists u, id u = random (length fs) /\ file u = f /\ builtFrom u
            /\ visit random (fs, evs) f = (fs ++ [u], evs).
Proof.
  unfold accepted, visit. intros H.
  apply andb_true_iff in H. destruct H as [Hs Ht].
  apply negb_true_iff in Hs. rewrite Hs.
  replace (negb (isImage f) && negb (isPDF f)) with false
    by (destruct (isImage f), (isPDF f); try reflexivity; discriminate).
  eexists. split; [|split; [|split; [|reflexivity]]];
    [reflexivity | reflexivity | repeat split].
Qed.

(** What the loop has built and said when it ends. *)
Lemma visit_fold_details (random : nat -> jsstring) (l : list (File Page)) :
  forall (fs : list (UploadedFile Page)) (evs : list (event Page)),
    let '(fs', evs') := fold_left (visit random) l (fs, evs) in
    (exists new,
        fs' = fs ++ new
        /\ map file new = filter accepted l
        /\ map id new
           = map random (seq (length fs) (length new))
        /\ Forall builtFrom new)
    /\ evs' = evs ++ map rejectionToast
                       (filter (fun f => negb (accepted f)) l).
Proof.
  induction l as [|f l IH]; intros fs evs.
  - cbn [fold_left filter map]. split; [|now rewrite app_nil_r].
    exists []. rewrite app_nil_r. repeat split. constructor.
  - cbn [fold_left filter]. destruct (accepted f) eqn:Ha; cbn [negb].
    + destruct (visit_accepted_id random fs evs f Ha)
        as (u & Hid & Hfile & Hb & ->).
      specialize (IH (fs ++ [u]) evs).
      destruct (fold_left _ l _) as [fs' evs'].
      destruct IH as ((new & -> & Hm & Hi & Hbs) & He).
      split; [|exact He].
      exists (u :: new). rewrite <- app_assoc. split; [reflexivity|].
      cbn [map length seq]. rewrite Hfile, Hm, Hid.
      rewrite length_app, Nat.add_1_r in Hi. rewrite Hi.
      repeat split. now constructor.
    + rewrite (visit_rejected_toast random fs evs f Ha).
      specialize (IH fs (evs ++ [rejectionToast f])).
      destruct (fold_left _ l _) as [fs' evs'].
      destruct IH as (Hnew & He). split; [exact Hnew|].
      rewrite He, <- app_assoc. reflexivity.
Qed.

Lemma destructiveToasts_rejections (l : list (File Page)) :
  destructiveToasts (map rejectionToast l) = map rejectionToast l.
Proof.
  induction l as [|f l IH]; [reflexivity|].
  cbn [map]. unfold destructiveToasts in *. cbn [filter]. rewrite IH.
  unfold rejectionToast at 1.
  now destruct (f_size f >? maxSize).
Qed.

(** The whole run, spelled out. *)
Lemma processFiles_run (random : nat -> jsstring) (l : list (File Page)) :
  exists fs,
    map file fs = filter accepted l
    /\ map id fs = map random (seq 0 (length fs))
    /\ Forall builtFrom fs
    /\ emitted (processFiles random l)
       = match fs with [] => None | _ :: _ => Some fs end
    /\ destructiveToasts (processFiles random l)
       = map rejectionToast (filter (fun f => negb (accepted f)) l).
Proof.
  unfold processFiles.
  pose proof (visit_fold_details random l [] [SetIsProcessing true]) as H.
  destruct (fold_left _ l _) as [fs evs].
  destruct H as ((new & E & Hm & Hi & Hb) & He).
  cbn [app length] in E, Hi. subst fs evs.
  exists new. split; [exact Hm|]. split; [exact Hi|]. split; [exact Hb|].
  set (rej := map rejectionToast _).
  assert (Hnone : flat_map (fun e => match e with
                                     | OnFilesUploaded fs => [fs]
                                     | _ => []
                                     end) rej = []).
  { subst rej. generalize (filter (fun f => negb (accepted f)) l) as r.
    induction r as [|f r IH]; [reflexivity|].
    cbn [map flat_map]. rewrite IH. unfold rejectionToast.
    now destruct (f_size f >? maxSize). }
  split.
  - unfold emitted. rewrite !flat_map_app. cbn [flat_map app]. rewrite Hnone.
    destruct new; reflexivity.
  - unfold destructiveToasts. rewrite !filter_app. cbn [filter app].
    fold (destructiveToasts rej). subst rej.
    rewrite destructiveToasts_rejections.
    destruct new; cbn; now rewrite app_nil_r.
Qed.

End UploadDetails.

(** X10.  Every file [processFiles] turns away is told to the user: the
    destructive toasts of a run are one per rejected file, in the order of
    the files, "File too large" for a file over the limit and "Unsupported
    format" for the others, each naming its file. *)
Theorem processFiles_reports_every_rejection {Page : Type} :
  forall (random : nat -> jsstring) (fileList : list (Index.File Page)),
    Reading.destructiveToasts (FileUpload.processFiles random fileList)
    = map Reading.rejectionToast
        (filter (fun f => negb (FileUpload.accepted f)) fileList).
Proof.
  intros random fileList.
  destruct (processFiles_run random fileList) as (fs & _ & _ & _ & _ & H).
  exact H.
Qed.

(** X11.  The files of one batch get the ids drawn for them one after the
    other, so when the draws differ the ids of the batch differ. *)
Theorem processFiles_draws_one_id_per_file {Page : Type} :
  forall (random : nat -> jsstring) (fileList : list (Index.File Page))
         (fs : list (Index.UploadedFile Page)),
    FileUpload.emitted (FileUpload.processFiles random fileList) = Some fs ->
    map Index.id fs = map random (seq 0 (length fs))
    /\ ((forall i j, (i < j < length fs)%nat -> random i <> random j) ->
        NoDup (map Index.id fs)).
Proof.
  intros random fileList fs H.
  destruct (processFiles_run random fileList)
    as (fs' & _ & Hi & _ & He & _).
  rewrite He in H. destruct fs' as [|u r]; [discriminate H|].
  injection H as <-. split; [exact Hi|].
  intros Hinj. rewrite Hi.
  assert (G : forall n k,
             (forall i j, (k <= i < j)%nat -> (j < k + n)%nat ->
                          random i <> random j) ->
             NoDup (map random (seq k n))).
  { induction n as [|n IH]; intros k Hk; [constructor|].
    cbn [seq map]. constructor.
    - intros Hin. apply in_map_iff in Hin.
      destruct Hin as (j & E & Hj). apply in_seq in Hj.
      apply (Hk k j); [lia | lia | now symmetry].
    - apply IH. intros i j Hij Hj. apply Hk; lia. }
  apply G. intros i j Hij Hj. apply Hinj. lia.
Qed.

Lemma processFiles_draws_one_id_per_file_witness :
  map Index.id
    (match FileUpload.emitted
             (FileUpload.processFiles (fun k => numberToString (Z.of_nat k))
                [Samples.picture; Samples.hugePdf; Samples.report]) with
     | Some fs => fs
     | None => []
     end)
  = [js "0"; js "1"].
Proof.
  destruct (FileUpload.emitted
              (FileUpload.processFiles (fun k => numberToString (Z.of_nat k))
                 [Samples.picture; Samples.hugePdf; Samples.report]))
    as [fs|] eqn:E; [|discriminate E].
  rewrite (proj1 (processFiles_draws_one_id_per_file _ _ _ E)).
  vm_compute in E. injection E as <-. reflexivity.
Defined.

(** ** The page: uploads, tools and tabs *)

Section PageState.
Import Index FileUpload IndexPage.
Context {Page : Type}.

Lemma image_type_not_pdf (t : jsstring) :
  startsWith (js "image/") t = true ->
  PDFManipulator.strEq t (js "application/pdf") = false.
Proof.
  destruct t as [|c t]; [discriminate|].
  change (js "image/") with (105%N :: js "mage/").
  change (js "application/pdf") with (97%N :: js "pplication/pdf").
  cbn [startsWith PDFManipulator.strEq].
  destruct (N.eqb_spec 105 c) as [<-|_]; [|discriminate].
  reflexivity.
Qed.

(** What a batch from [processFiles] is made of. *)
Lemma batch_files (random : nat -> jsstring) (fileList : list (File Page))
    (fs : list (UploadedFile Page)) :
  emitted (processFiles random fileList) = Some fs ->
  fs <> []
  /\ Forall (fun u => xorb (isImageFile u) (isPDFFile u) = true) fs.
Proof.
  intros H.
  destruct (processFiles_run random fileList)
    as (fs' & Hm & _ & Hb & He & _).
  rewrite He in H. destruct fs' as [|u r]; [discriminate H|].
  injection H as <-. split; [discriminate|].
  apply Forall_forall. intros v Hv.
  rewrite Forall_forall in Hb. destruct (Hb v Hv) as (_ & _ & _ & _ & Ht).
  assert (Ha : accepted (file v) = true).
  { assert (Hin : In (file v) (filter accepted fileList))
      by (rewrite <- Hm; now apply in_map).
    now apply filter_In in Hin. }
  unfold accepted in Ha. apply andb_true_iff in Ha. destruct Ha as [_ Ha].
  unfold isImageFile, isPDFFile. rewrite Ht.
  unfold isImage, isPDF in Ha.
  destruct (startsWith (js "image/") (f_type (file v))) eqn:Ei.
  - now rewrite (image_type_not_pdf _ Ei).
  - cbn [orb] in Ha. now rewrite Ha.
Qed.

Lemma all_images_no_pdf (fs : list (UploadedFile Page)) :
  forallb isImageFile fs = true -> existsb isPDFFile fs = false.
Proof.
  induction fs as [|u fs IH]; [reflexivity|].
  cbn [forallb existsb]. rewrite andb_true_iff. intros [Hu Hfs].
  unfold isImageFile in Hu. unfold isPDFFile at 1.
  now rewrite (image_type_not_pdf _ Hu), IH.
Qed.

Lemma all_pdfs_no_image (fs : list (UploadedFile Page)) :
  forallb isPDFFile fs = true -> existsb isImageFile fs = false.
Proof.
  induction fs as [|u fs IH]; [reflexivity|].
  cbn [forallb existsb]. rewrite andb_true_iff. intros [Hu Hfs].
  rewrite IH by assumption. unfold isPDFFile in Hu. unfold isImageFile.
  destruct (startsWith (js "image/") (type u)) eqn:Ei; [|reflexivity].
  rewrite (image_type_not_pdf _ Ei) in Hu. discriminate Hu.
Qed.

Lemma forallb_nonempty_existsb {A} (f : A -> bool) (l : list A) :
  l <> [] -> forallb f l = true -> existsb f l = true.
Proof.
  destruct l as [|x l]; [contradiction|]. intros _.
  cbn [forallb existsb]. rewrite andb_true_iff. now intros [-> _].
Qed.

Lemma removeFile_filter_fresh (l : list (UploadedFile Page))
    (fileId : jsstring) :
  (forall v, In v l -> id v <> fileId) ->
  filter (fun f => negb (PDFManipulator.strEq (id f) fileId)) l = l.
Proof.
  induction l as [|v l IH]; intros H; [reflexivity|].
  cbn [filter].
  destruct (PDFManipulator.strEq (id v) fileId) eqn:E.
  - apply strEq_eq in E. exfalso. apply (H v); [now left | exact E].
  - cbn [negb]. rewrite IH; [reflexivity|].
    intros w Hw. apply H. now right.
Qed.

End PageState.

(** X12.  Every file of a batch that [processFiles] hands over is an image
    or a PDF and not both, so once the page has taken the batch the file is
    offered by exactly one of the image tools and the PDF tools. *)
Theorem uploaded_file_goes_to_one_tool {Page : Type} :
  forall (random : nat -> jsstring) (fileList : list (Index.File Page))
         (fs : list (Index.UploadedFile Page)) (st : IndexPage.State Page)
         (u : Index.UploadedFile Page),
    FileUpload.emitted (FileUpload.processFiles random fileList) = Some fs ->
    In u fs ->
    let st' := IndexPage.handleFilesUploaded st fs in
    (In u (IndexPage.imageToolFiles st')
     /\ ~ In u (IndexPage.pdfToolFiles st'))
    \/ (In u (IndexPage.pdfToolFiles st')
        /\ ~ In u (IndexPage.imageToolFiles st')).
Proof.
  intros random fileList fs st u He Hu st'.
  destruct (batch_files random fileList fs He) as [_ Hx].
  rewrite Forall_forall in Hx. specialize (Hx u Hu).
  assert (Hin : In u (IndexPage.uploadedFiles st'))
    by (cbn; apply in_or_app; now right).
  unfold IndexPage.imageToolFiles, IndexPage.pdfToolFiles.
  rewrite !filter_In.
  destruct (IndexPage.isImageFile u), (IndexPage.isPDFFile u);
    try discriminate Hx.
  - left. split; [now split | intros [_ H]; discriminate H].
  - right. split; [now split | intros [_ H]; discriminate H].
Qed.

Lemma uploaded_file_goes_to_one_tool_witness :
  let st' := IndexPage.handleFilesUploaded Batches.emptyPage Batches.batch in
  (In (Batches.uploaded 1 Samples.report) (IndexPage.imageToolFiles st')
   /\ ~ In (Batches.uploaded 1 Samples.report) (IndexPage.pdfToolFiles st'))
  \/ (In (Batches.uploaded 1 Samples.report) (IndexPage.pdfToolFiles st')
      /\ ~ In (Batches.uploaded 1 Samples.report)
              (IndexPage.imageToolFiles st')).
Proof.
  apply (uploaded_file_goes_to_one_tool Batches.draw Batches.dropped
           Batches.batch Batches.emptyPage
           (Batches.uploaded 1 Samples.report)).
  - reflexivity.
  - right; left; reflexivity.
Defined.

(** X13.  From the upload tab, a batch of images only opens the image
    tools, a batch of PDFs only opens the PDF conversion, and a batch with
    both leaves the tab where it is; from any other tab an upload never
    changes the tab.  The batch is always added after the files already
    there. *)
Theorem upload_opens_the_matching_tab {Page : Type} :
  forall (random : nat -> jsstring) (fileList : list (Index.File Page))
         (fs : list (Index.UploadedFile Page)) (st : IndexPage.State Page),
    FileUpload.emitted (FileUpload.processFiles random fileList) = Some fs ->
    let st' := IndexPage.handleFilesUploaded st fs in
    IndexPage.uploadedFiles st' = IndexPage.uploadedFiles st ++ fs
    /\ (IndexPage.activeTab st <> js "upload" ->
        IndexPage.activeTab st' = IndexPage.activeTab st)
    /\ (IndexPage.activeTab st = js "upload" ->
        (forallb IndexPage.isImageFile fs = true ->
         IndexPage.activeTab st' = js "image-convert")
        /\ (forallb IndexPage.isPDFFile fs = true ->
            IndexPage.activeTab st' = js "pdf-convert")
        /\ (existsb IndexPage.isImageFile fs = true ->
            existsb IndexPage.isPDFFile fs = true ->
            IndexPage.activeTab st' = js "upload")).
Proof.
  intros random fileList fs st He st'.
  destruct (batch_files random fileList fs He) as [Hne _].
  split; [reflexivity|]. split.
  - intros Hn. subst st'. cbn [IndexPage.handleFilesUploaded
                                 IndexPage.activeTab].
    destruct (PDFManipulator.strEq (IndexPage.activeTab st) (js "upload"))
      eqn:E; [apply strEq_eq in E; contradiction|].
    now rewrite andb_false_r.
  - intros Hu. subst st'. cbn [IndexPage.handleFilesUploaded
                                 IndexPage.activeTab].
    rewrite Hu, strEq_refl.
    assert (Hlen : (0 <? length fs)%nat = true).
    { destruct fs; [contradiction | reflexivity]. }
    rewrite Hlen. cbn [andb]. cbv zeta.
    split; [|split].
    + intros Hall.
      rewrite (forallb_nonempty_existsb _ _ Hne Hall).
      now rewrite (all_images_no_pdf _ Hall).
    + intros Hall.
      rewrite (forallb_nonempty_existsb _ _ Hne Hall).
      now rewrite (all_pdfs_no_image _ Hall).
    + intros Hi Hp. now rewrite Hi, Hp.
Qed.

Lemma upload_opens_the_matching_tab_witness :
  IndexPage.activeTab
    (IndexPage.handleFilesUploaded Batches.emptyPage Batches.batch)
  = js "upload"
  /\ IndexPage.activeTab
       (IndexPage.handleFilesUploaded Batches.emptyPage
          [Batches.uploaded 0 Samples.report])
     = js "pdf-convert".
Proof.
  split.
  - apply (proj2 (proj2 (upload_opens_the_matching_tab Batches.draw
                           Batches.dropped Batches.batch Batches.emptyPage
                           eq_refl)) eq_refl); reflexivity.
  - apply (proj2 (proj2 (upload_opens_the_matching_tab Batches.draw
                           [Samples.notes; Samples.report]
                           [Batches.uploaded 0 Samples.report]
                           Batches.emptyPage eq_refl)) eq_refl).
    reflexivity.
Defined.

(** X14.  [removeFile] leaves no file with the id it is given, and it takes
    back an upload: removing a file just uploaded, whose id no earlier file
    has, gives the list as it was before the upload. *)
Theorem removeFile_takes_back_an_upload {Page : Type} :
  forall (st : IndexPage.State Page) (u : Index.UploadedFile Page),
    (forall v, In v (IndexPage.uploadedFiles
                       (IndexPage.removeFile st (Index.id u))) ->
               Index.id v <> Index.id u)
    /\ ((forall v, In v (IndexPage.uploadedFiles st) ->
                   Index.id v <> Index.id u) ->
        IndexPage.uploadedFiles
          (IndexPage.removeFile (IndexPage.handleFilesUploaded st [u])
             (Index.id u))
        = IndexPage.uploadedFiles st).
Proof.
  intros st u. split.
  - intros v Hv. cbn in Hv. apply filter_In in Hv. destruct Hv as [_ Hv].
    intros E. rewrite E, strEq_refl in Hv. discriminate Hv.
  - intros Hfresh.
    cbn [IndexPage.removeFile IndexPage.handleFilesUploaded
         IndexPage.uploadedFiles].
    rewrite filter_app, removeFile_filter_fresh by assumption.
    cbn [filter]. rewrite strEq_refl. cbn [negb]. apply app_nil_r.
Qed.

Lemma removeFile_takes_back_an_upload_witness :
  IndexPage.uploadedFiles
    (IndexPage.removeFile
       (IndexPage.handleFilesUploaded
          (IndexPage.handleFilesUploaded Batches.emptyPage
             [Batches.uploaded 0 Samples.picture])
          [Batches.uploaded 1 Samples.report])
       (Batches.draw 1))
  = [Batches.uploaded 0 Samples.picture].
Proof.
  apply (proj2 (removeFile_takes_back_an_upload
                  (IndexPage.handleFilesUploaded Batches.emptyPage
                     [Batches.uploaded 0 Samples.picture])
                  (Batches.uploaded 1 Samples.report))).
  intros v [<-|[]]. vm_compute. discriminate.
Defined.

(** ** The angle the buttons keep *)

Section RotationCount.
Import ImageConverter Reading.

Lemma rem_mod_360 (a : Z) : Z.rem a 360 mod 360 = a mod 360.
Proof.
  rewrite Z.rem_eq by lia.
  replace (a - 360 * (a ÷ 360)) with (a + (- (a ÷ 360)) * 360) by lia.
  apply Z_mod_plus_full.
Qed.

Lemma onClick_mod (r : Z) (c : click) :
  onClick r c mod 360
  = (r + 90 * (clicksOf Right [c] - clicksOf Left [c])) mod 360.
Proof.
  destruct c; cbn [onClick]; unfold rotateLeft, rotateRight;
    rewrite rem_mod_360; f_equal; cbn; lia.
Qed.

Lemma clicksOf_cons (k c : click) (cs : list click) :
  clicksOf k (c :: cs) = clicksOf k [c] + clicksOf k cs.
Proof.
  unfold clicksOf. cbn [filter].
  destruct c, k; cbn [length]; lia.
Qed.

Lemma fold_onClick_mod (cs : list click) :
  forall r,
    fold_left onClick cs r mod 360
    = (r + 90 * (clicksOf Right cs - clicksOf Left cs)) mod 360.
Proof.
  induction cs as [|c cs IH]; intros r.
  - cbn. f_equal. lia.
  - cbn [fold_left]. rewrite IH.
    rewrite (clicksOf_cons Right), (clicksOf_cons Left).
    rewrite <- Zplus_mod_idemp_l, onClick_mod, Zplus_mod_idemp_l.
    f_equal. lia.
Qed.

End RotationCount.

(** X15.  Whatever sequence of the two buttons is clicked, the stored angle
    is a multiple of 90 strictly between -360 and 360, and it is the right
    turn modulo 360: 90 times the clockwise clicks less the counter-clockwise
    ones. *)
Theorem rotation_counts_the_clicks :
  forall cs : list ImageConverter.click,
    ImageConverter.rotationAfter cs mod 360
    = (90 * (Reading.clicksOf ImageConverter.Right cs
             - Reading.clicksOf ImageConverter.Left cs)) mod 360
    /\ In (ImageConverter.rotationAfter cs)
          [-270; -180; -90; 0; 90; 180; 270].
Proof.
  intros cs. split; [|apply rotationAfter_range].
  unfold ImageConverter.rotationAfter. rewrite fold_onClick_mod.
  f_equal.
Qed.

(** ** More on page ranges *)

Section RangeFacts.
Import Grammar.

Lemma pagesOfToken_mono (P Q : Z) (t : token) (x : Z) :
  P <= Q -> In x (pagesOfToken P t) -> In x (pagesOfToken Q t).
Proof.
  intros HPQ. destruct t as [[n|]|[s|] [e|]]; cbn [pagesOfToken];
    try tauto.
  - destruct (n >=? 1); cbn [andb]; [|tauto].
    destruct (Z.leb_spec n P); [|intros []].
    destruct (Z.leb_spec n Q); [tauto | lia].
  - destruct (negb (s =? 0) && negb (e =? 0) && (s <=? e) && (s >=? 1));
      cbn [andb]; [|tauto].
    destruct (Z.leb_spec e P); [|intros []].
    destruct (Z.leb_spec e Q); [tauto | lia].
Qed.

Lemma split_app_at_sep (sep : code_unit) (a b : jsstring) :
  split sep (a ++ sep :: b) = split sep a ++ split sep b.
Proof.
  induction a as [|c a IH]; cbn [app split].
  - now rewrite N.eqb_refl.
  - destruct (c =? sep)%N.
    + now rewrite IH.
    + rewrite IH. pose proof (split_not_nil sep a) as Hne.
      destruct (split sep a) as [|h t]; [contradiction | reflexivity].
Qed.

Lemma pushRange_sorted (s e : Z) : StronglySorted Z.lt (pushRange s e).
Proof.
  unfold pushRange. generalize (Z.to_nat (e + 1 - s)) as n, 0%nat as k.
  induction n as [|n IH]; intros k; cbn [seq map]; constructor.
  - apply IH.
  - apply Forall_forall. intros x Hx. apply in_map_iff in Hx.
    destruct Hx as (j & <- & Hj). apply in_seq in Hj. lia.
Qed.

Lemma trimEnd_digit (s : jsstring) (c : code_unit) :
  isDecimalDigit c = true -> trimEnd (s ++ [c]) = s ++ [c].
Proof.
  intros H. unfold trimEnd. rewrite rev_app_distr. cbn [rev app].
  rewrite trimStart_digit by assumption.
  cbn [rev]. now rewrite rev_involutive.
Qed.

Lemma numeral_last (ds : jsstring) :
  isNumeral ds = true ->
  exists front c, ds = front ++ [c] /\ isDecimalDigit c = true.
Proof.
  intros H. pose proof (isNumeral_forallb _ H) as Hall.
  destruct (exists_last (l := ds)) as (front & c & E);
    [destruct ds; [discriminate H | discriminate]|].
  exists front, c. split; [exact E|].
  rewrite forallb_forall in Hall. apply Hall. rewrite E.
  apply in_or_app. right. now left.
Qed.

(** The text [1-N] is read as the range from 1 to [N]. *)
Lemma tokenOf_one_to (n : Z) :
  0 <= n ->
  tokenOf (js "1-" ++ numberToString n) = Range (Some 1) (Some n).
Proof.
  intros Hn.
  destruct (numberToString_numeral n Hn) as [Hnum Hval].
  pose proof (isNumeral_forallb _ Hnum) as Hall.
  destruct (numeral_last _ Hnum) as (front & c & E & Hc).
  assert (Ht : trim (js "1-" ++ numberToString n)
               = js "1-" ++ numberToString n).
  { unfold trim. change (js "1-") with [49%N; 45%N]. cbn [app].
    rewrite trimStart_digit by reflexivity.
    rewrite E.
    change (49%N :: 45%N :: front ++ [c])
      with ((49%N :: 45%N :: front) ++ [c]).
    now apply trimEnd_digit. }
  unfold tokenOf. rewrite Ht.
  change (js "1-" ++ numberToString n)
    with ([49%N] ++ 45%N :: numberToString n).
  assert (Hi : includes 45%N ([49%N] ++ 45%N :: numberToString n) = true).
  { cbn. reflexivity. }
  rewrite Hi, split_app_sep by (intros [H|[]]; discriminate H).
  rewrite split_no_sep by (now apply numeral_no_char).
  cbn [map nth]. rewrite (trim_numeral _ Hall).
  rewrite (parseInt_numeral _ Hnum), Hval. reflexivity.
Qed.

Lemma parsePageRange_one_to (N : Z) :
  1 <= N ->
  parsePageRange (js "1-" ++ numberToString N) N = pushRange 1 N.
Proof.
  intros HN. rewrite parsePageRange_tokens.
  rewrite split_no_sep.
  - cbn [map flat_map]. rewrite tokenOf_one_to by lia.
    cbn [pagesOfToken].
    replace (negb (1 =? 0) && negb (N =? 0) && (1 <=? N) && (1 >=? 1)
             && (N <=? N)) with true.
    + rewrite app_nil_r.
      rewrite setOf_fixed
        by (apply StronglySorted_lt_NoDup, pushRange_sorted).
      apply sortAscending_fixed, pushRange_sorted.
    + symmetry. rewrite !andb_true_iff.
      repeat split; try reflexivity;
        [apply negb_true_iff, Z.eqb_neq | apply Z.leb_le
         | apply Z.leb_le]; lia.
  - change (js "1-") with [49%N; 45%N]. cbn [app].
    intros [H|[H|H]]; try discriminate H.
    now apply (numberToString_no_comma N ltac:(lia)).
Qed.

End RangeFacts.

(** X16.  A range never selects a page the document does not have: every
    page number [parsePageRange] returns is between 1 and the page count,
    so the [copyPages] call of a split finds a page at every index it asks
    for and returns as many pages as were selected. *)
Theorem selection_stays_inside_the_document {Page : Type} :
  forall (pdf : list Page) (E : jsstring),
    let pages := parsePageRange E (Z.of_nat (length pdf)) in
    Forall (fun p => 1 <= p <= Z.of_nat (length pdf)) pages
    /\ exists copied,
         PDFManipulator.copyPages pdf (map (fun p => p - 1) pages)
         = Effects.ret copied
         /\ length copied = length pages.
Proof.
  intros pdf E pages.
  assert (Hb : Forall (fun p => 1 <= p <= Z.of_nat (length pdf)) pages).
  { apply Forall_forall. intros x. apply parsePageRange_bounds. }
  split; [exact Hb|].
  exists (flat_map (PDFManipulator.singlePage pdf) pages).
  split; [now apply copyPages_selected|].
  induction Hb as [|p r Hp Hr IH]; [reflexivity|].
  destruct (singlePage_in_bounds pdf p Hp) as (pg & _ & Hs).
  cbn [flat_map]. rewrite Hs. cbn [app length]. now rewrite IH.
Qed.

(** X17.  Against a longer document an expression selects at least the
    pages it selects against a shorter one. *)
Theorem longer_document_keeps_the_selection :
  forall (E : jsstring) (P Q x : Z),
    P <= Q -> In x (parsePageRange E P) -> In x (parsePageRange E Q).
Proof.
  intros E P Q x HPQ. rewrite !parsePageRange_In.
  intros (part & Hp & Hx). exists part. split; [exact Hp|].
  rewrite pagesOfPart_token in *. now apply (pagesOfToken_mono P Q).
Qed.

Lemma longer_document_keeps_the_selection_witness :
  In 2 (parsePageRange (js "1-3,7-9") 9).
Proof.
  apply (longer_document_keeps_the_selection (js "1-3,7-9") 5 9 2).
  - lia.
  - vm_compute. right; left; reflexivity.
Defined.

(** X18.  Two expressions joined by a comma select the pages either one
    selects. *)
Theorem joined_expressions_select_the_union :
  forall (E1 E2 : jsstring) (P x : Z),
    In x (parsePageRange (E1 ++ js "," ++ E2) P)
    <-> In x (parsePageRange E1 P) \/ In x (parsePageRange E2 P).
Proof.
  intros E1 E2 P x. rewrite !parsePageRange_In.
  change (E1 ++ js "," ++ E2) with (E1 ++ 44%N :: E2).
  rewrite split_app_at_sep. split.
  - intros (part & Hp & Hx). apply in_app_or in Hp.
    destruct Hp as [Hp|Hp]; [left | right]; now exists part.
  - intros [(part & Hp & Hx)|(part & Hp & Hx)]; exists part;
      (split; [apply in_or_app; tauto | exact Hx]).
Qed.

(** X19.  The range "1-N" against a document of [N] pages selects every
    page, in order. *)
Theorem one_to_N_selects_every_page :
  forall N : Z,
    1 <= N ->
    parsePageRange (js "1-" ++ numberToString N) N = pushRange 1 N.
Proof. exact parsePageRange_one_to. Qed.

Lemma one_to_N_selects_every_page_witness :
  parsePageRange (js "1-" ++ numberToString 12) 12 = pushRange 1 12.
Proof. apply one_to_N_selects_every_page. lia. Defined.

Section WholeDocument.
Import Effects Index PDFManipulator.
Context {Page : Type} {lib : PdfLib Page}.

Lemma trim_one_to (n : Z) :
  0 <= n -> trim (js "1-" ++ numberToString n) = js "1-" ++ numberToString n.
Proof.
  intros Hn.
  destruct (numberToString_numeral n Hn) as [Hnum _].
  destruct (numeral_last _ Hnum) as (front & c & E & Hc).
  unfold trim. change (js "1-") with [49%N; 45%N]. cbn [app].
  rewrite trimStart_digit by reflexivity. rewrite E.
  change (49%N :: 45%N :: front ++ [c])
    with ((49%N :: 45%N :: front) ++ [c]).
  now apply trimEnd_digit.
Qed.

Lemma every_page_copied (pdf : list Page) :
  flat_map (singlePage pdf) (pushRange 1 (Z.of_nat (length pdf))) = pdf.
Proof.
  pose proof (copyPages_front pdf []) as H1. rewrite app_nil_r in H1.
  rewrite copyPages_selected in H1.
  - unfold ret in H1. now injection H1.
  - apply Forall_forall. intros x Hx. apply pushRange_In in Hx. lia.
Qed.

End WholeDocument.

(** X20.  Extracting the range "1-N" from a document of [N] pages that
    saves hands the browser one file holding the whole document, page for
    page. *)
Theorem split_one_to_N_copies_the_document
    {Page : Type} {lib : PdfLib Page} :
  forall (st : PDFManipulator.State Page) (f : Index.UploadedFile Page)
         (pdf : list Page),
    PDFManipulator.files st = [f] ->
    Index.f_pdf (Index.file f) = Some pdf ->
    pdf <> [] ->
    PDFManipulator.splitRange st
    = js "1-" ++ numberToString (Z.of_nat (length pdf)) ->
    PDFManipulator.strEq (PDFManipulator.splitMode st) (js "range") = true ->
    canSave pdf = true ->
    Effects.downloads (PDFManipulator.splitPDF st)
    = [(PDFManipulator.baseName f ++ js "_pages_"
        ++ PDFManipulator.splitRange st ++ js ".pdf", pdf)]
    /\ Effects.failed (PDFManipulator.splitPDF st) = false.
Proof.
  intros st f pdf Hf Hp Hne Hr Hm Hs.
  assert (HN : 1 <= Z.of_nat (length pdf))
    by (destruct pdf; [contradiction | cbn [length]; lia]).
  assert (Ht : trim (PDFManipulator.splitRange st) <> []).
  { rewrite Hr, trim_one_to by lia. discriminate. }
  rewrite (splitPDF_run st f pdf Hf Hp Ht). cbv zeta.
  assert (E : parsePageRange (PDFManipulator.splitRange st)
                (Z.of_nat (length pdf))
              = pushRange 1 (Z.of_nat (length pdf))).
  { rewrite Hr. apply parsePageRange_one_to. exact HN. }
  rewrite E, Hm, every_page_copied, Hs.
  destruct (pushRange 1 (Z.of_nat (length pdf))) as [|p ps] eqn:Ep.
  - exfalso. assert (Hin : In 1 (pushRange 1 (Z.of_nat (length pdf))))
      by (apply pushRange_In; lia).
    rewrite Ep in Hin. exact Hin.
  - split; reflexivity.
Qed.

Lemma split_one_to_N_copies_the_document_witness :
  Effects.downloads
    (PDFManipulator.splitPDF (lib := Samples.savesAll)
       (Samples.splitting Samples.fileDoc "1-4" "range"))
  = [(js "doc_pages_1-4.pdf", [10; 20; 30; 40]%nat)].
Proof.
  apply (split_one_to_N_copies_the_document (lib := Samples.savesAll)
           (Samples.splitting Samples.fileDoc "1-4" "range")
           Samples.fileDoc [10; 20; 30; 40]%nat);
    try reflexivity.
  discriminate.
Defined.

(** ** Images to one PDF *)

Section ImagesToPDF.
Import Effects Index PDFConverter.
Context {Page Img Box : Type} {canvas : Canvas Page Img Box}.

Lemma addImage_on_new_page (done : list (@sheet Img Box)) (img : Img)
    (box : Box) :
  addImage (addPage done) img box = done ++ [[(img, box)]].
Proof.
  unfold addImage, addPage. rewrite rev_app_distr. cbn [rev app].
  now rewrite rev_involutive.
Qed.

Lemma placing_after_the_first (l : list (UploadedFile Page)) :
  forall (imgs : list Img) (done : list sheet),
    map (fun f => loadImage (file f)) l = map Some imgs ->
    forOf l placeImage (done, false)
    = ret (done ++ map sheetOf imgs, false).
Proof.
  induction l as [|f l IH]; intros imgs done H.
  - destruct imgs; [|discriminate H]. cbn [forOf map].
    now rewrite app_nil_r.
  - destruct imgs as [|img imgs]; [discriminate H|].
    cbn [map] in H. injection H as Hf Hl.
    cbn [forOf]. unfold placeImage at 1. rewrite Hf. cbn [negb].
    rewrite bind_ret, addImage_on_new_page, (IH imgs) by assumption.
    cbn [map]. now rewrite <- app_assoc.
Qed.

Lemma placing_all (l : list (UploadedFile Page)) (imgs : list Img) :
  l <> [] ->
  map (fun f => loadImage (file f)) l = map Some imgs ->
  forOf l placeImage ([[]], true) = ret (map sheetOf imgs, false).
Proof.
  intros Hne H. destruct l as [|f l]; [contradiction|].
  destruct imgs as [|img imgs]; [discriminate H|].
  cbn [map] in H. injection H as Hf Hl.
  cbn [forOf]. unfold placeImage at 1. rewrite Hf. cbn [negb].
  rewrite bind_ret.
  change (addImage [[]] img (fitToPage img)) with [sheetOf img].
  now rewrite (placing_after_the_first l imgs).
Qed.

Lemma placing_stops (l : list (UploadedFile Page)) :
  forall acc,
    existsb (fun f => match loadImage (file f) with
                      | None => true
                      | Some _ => false
                      end) l = true ->
    forOf l placeImage acc = ([], inr (js "Failed to load image")).
Proof.
  induction l as [|f l IH]; intros [pdf first] H; [discriminate H|].
  cbn [existsb] in H. cbn [forOf]. unfold placeImage at 1.
  destruct (loadImage (file f)) as [img|]; [|reflexivity].
  cbn [orb] in H. rewrite bind_ret. now apply IH.
Qed.

End ImagesToPDF.

(** X21.  [convertImagesToPDF] takes the images among the files, in their
    order.  When all of them load, it saves one PDF with as many pages as
    images, the n-th page holding the n-th image alone; when one does not
    load, or there is no image, it reports a failure and saves nothing. *)
Theorem images_go_one_to_a_page
    {Page Img Box : Type} {canvas : Canvas Page Img Box} :
  forall files : list (Index.UploadedFile Page),
    (forall imgs : list Img,
        PDFConverter.imageFiles files <> [] ->
        map (fun f => loadImage (Index.file f))
            (PDFConverter.imageFiles files) = map Some imgs ->
        Effects.downloads (PDFConverter.convertImagesToPDF files)
        = [(js "converted_images.pdf", map PDFConverter.sheetOf imgs)]
        /\ Effects.failed (PDFConverter.convertImagesToPDF files) = false)
    /\ (existsb (fun f => match loadImage (Index.file f) with
                          | None => true
                          | Some _ => false
                          end) (PDFConverter.imageFiles files) = true
        \/ PDFConverter.imageFiles files = [] ->
        Effects.downloads (PDFConverter.convertImagesToPDF files) = []
        /\ Effects.failed (PDFConverter.convertImagesToPDF files) = true).
Proof.
  intros files. unfold PDFConverter.convertImagesToPDF. split.
  - intros imgs Hne Hl.
    rewrite (placing_all _ imgs Hne Hl).
    destruct (PDFConverter.imageFiles files); [contradiction|].
    split; reflexivity.
  - intros [H|H].
    + rewrite (placing_stops _ _ H).
      destruct (PDFConverter.imageFiles files); split; reflexivity.
    + rewrite H. split; reflexivity.
Qed.

Lemma images_go_one_to_a_page_witness :
  Effects.downloads
    (PDFConverter.convertImagesToPDF (canvas := Batches.drawsAll)
       [Batches.image 0 "a.png" 7; Batches.uploaded 1 Samples.report;
        Batches.image 2 "b.png" 9])
  = [(js "converted_images.pdf", [[(7%nat, 7%nat)]; [(9%nat, 9%nat)]])]
  /\ Effects.downloads
       (PDFConverter.convertImagesToPDF (canvas := Batches.drawsAll)
          [Batches.image 0 "a.png" 7; Batches.image 1 "broken.png" 9])
     = [].
Proof.
  split.
  - apply (proj1 (images_go_one_to_a_page (canvas := Batches.drawsAll)
                    [Batches.image 0 "a.png" 7;
                     Batches.uploaded 1 Samples.report;
                     Batches.image 2 "b.png" 9]) [7; 9]%nat).
    + discriminate.
    + reflexivity.
  - apply (proj2 (images_go_one_to_a_page (canvas := Batches.drawsAll)
                    [Batches.image 0 "a.png" 7;
                     Batches.image 1 "broken.png" 9])).
    left. reflexivity.
Defined.

Lemma parseDimension_reads_integers_witness :
  Resize.parseDimension (js "px") = Some 0
  /\ Resize.parseDimension (numberToString 1920) = Some 1920.
Proof.
  split.
  - apply (proj1 (proj2 parseDimension_reads_integers) (js "px")).
    reflexivity.
  - apply (proj1 parseDimension_reads_integers 1920).
    unfold isSafeInteger, MAX_SAFE_INTEGER. lia.
Defined.

Lemma joined_expressions_select_the_union_witness :
  In 9 (parsePageRange (js "1-3" ++ js "," ++ js "9") 10).
Proof.
  apply (proj2 (joined_expressions_select_the_union
                  (js "1-3") (js "9") 10 9)).
  right. vm_compute. left; reflexivity.
Defined.

(** With no page in any document, the file a merge saves holds the blank
    page. *)
Example merge_of_empty_documents :
  Effects.downloads
    (PDFManipulator.mergePDFs (lib := Samples.savesAll)
       (Samples.merging
          [Samples.fileEmpty; Samples.pdfFile "f1f1f1f1f" "none.pdf" []]))
  = [(js "merged_document.pdf", [blankPage (PdfLib := Samples.savesAll)])].
Proof. reflexivity. Qed.
